(** * dreadfort.sinks.elasticsearch.sink

    A shallow embedding of the Elasticsearch sink of dreadfort
    (src/dreadfort/sinks/elasticsearch/sink.py): the publisher
    ([_queue_index_request], [put_message]), the stream reader
    ([get_queue_stream]), the batch flusher ([flush_to_es]) and the
    process pool ([ElasticSearchStreamBulker]).

    The module is Python 2 code (it reads [ex.message], which Python 3
    removed), so [map] is the eager list function and [range] builds a
    list.

    The broker (kombu), the search backend (elasticsearch.helpers), the
    task framework (celery), [uuid] and [multiprocessing] are libraries
    outside the repository.  They enter the model as the record [env] and
    as the [channel] component of the [world]; what they do is taken from
    the interfaces section of the specification. *)

From Stdlib Require Import String Ascii List ZArith Bool Arith Lia Permutation.
Import ListNotations.
Open Scope string_scope.
Open Scope list_scope.

#[local] Set Warnings "-register-all".

(** ** Python values *)

(** The documents that travel through the sink: JSON-shaped Python values,
    plus [PObject] for any other Python object (which the JSON serializer
    refuses).  A [dict] keeps its items in an association list, looked up
    from the front. *)
Inductive pyval : Type :=
| PNone
| PBool (b : bool)
| PInt (z : Z)
| PStr (s : string)
| PList (items : list pyval)
| PDict (items : list (string * pyval))
| PObject (repr : string).

(** The classes of the exceptions met in the module.  All of them derive
    from Python's [Exception]: [exn] is the type of the instances an
    [except Exception] clause matches. *)
Inductive exn_class : Type :=
| KeyError | TypeError | NameError | IndexError
| Empty            (* Queue.Empty, raised by SimpleQueue.get on timeout *)
| EncodeError      (* kombu: the body cannot be serialized *)
| ConnectionError  (* broker or backend unreachable *)
| TransportError   (* backend refused the request *)
| OtherError (name : string).

Record exn : Type := Exn { cls : exn_class; message : string }.

(** A computation either returns or raises. *)
Inductive result (A : Type) : Type :=
| Return (a : A)
| Raise (e : exn).
Arguments Return {A} a.
Arguments Raise {A} e.

Definition bind {A B : Type} (r : result A) (k : A -> result B) : result B :=
  match r with
  | Return a => k a
  | Raise e => Raise e
  end.

Notation "x <- r ;; k" := (bind r (fun x => k))
  (at level 61, r at next level, right associativity).

Fixpoint lookup (key : string) (items : list (string * pyval)) : option pyval :=
  match items with
  | [] => None
  | (k, v) :: rest => if String.eqb k key then Some v else lookup key rest
  end.

(** [obj[key]] for a string key: a dict answers or raises KeyError, every
    other value raises TypeError. *)
Definition getitem (obj : pyval) (key : string) : result pyval :=
  match obj with
  | PDict items =>
      match lookup key items with
      | Some v => Return v
      | None => Raise (Exn KeyError key)
      end
  | _ => Raise (Exn TypeError "indices must be integers")
  end.

(** What the JSON serializer accepts. *)
Fixpoint json_serializable (v : pyval) : bool :=
  match v with
  | PNone | PBool _ | PInt _ | PStr _ => true
  | PList items => forallb json_serializable items
  | PDict items =>
      forallb (fun kv : string * pyval => json_serializable (snd kv)) items
  | PObject _ => false
  end.

(** ** The world outside the module *)

(** Modelled from the spec: a message handle as the pull interface
    returns it, with [.payload] and the delivery tag that [.ack()] sends
    back. *)
Record Message : Type := Msg { delivery_tag : nat; payload : pyval }.

(** Modelled from the spec: the Durable Channel (the broker is not part of
    the repository).  [ready] holds the bodies waiting for delivery,
    oldest first; [unacked] the messages delivered and not acknowledged,
    which the broker may deliver again; [acked] the messages acknowledged,
    hence removed, in the order of their acknowledgement. *)
Record channel : Type := Channel {
  ready : list pyval;
  unacked : list Message;
  acked : list Message;
  next_tag : nat
}.

Inductive log_entry : Type :=
| LogError (text : string)         (* _LOG.error(text) *)
| LogException (e : exn)           (* _LOG.exception(ex) *)
| LogExceptionText (text : string) (* _LOG.exception(ex.message) *).

Record world : Type := World {
  chan : channel;
  log : list log_entry;
  clock : nat;   (* calls made to the broker and the backend so far *)
  uuids : nat    (* draws made from uuid.uuid4 so far *)
}.

(** Modelled from the spec: the collaborators and the configuration that
    the module reads and the repository's sources under src/ do not
    define ([es_handler], [uuid], [multiprocessing], the broker and the
    backend). *)
Record env : Type := Env {
  TTL : Z;                     (* es_handler.ttl *)
  BULK_SIZE : nat;             (* es_handler.bulk_size *)
  cpu_count : nat;             (* multiprocessing.cpu_count() *)
  uuid4 : nat -> string;       (* str(uuid.uuid4()) at the n-th draw *)
  fault : nat -> option exn;   (* the exception, if any, that the call
                                  made at a given clock value raises *)
  es_bulk : nat -> list pyval -> list (bool * pyval)
                               (* the per-item results of a bulk request
                                  made at a given clock value *)
}.

Definition set_chan (w : world) (c : channel) : world :=
  World c (log w) (clock w) (uuids w).

Definition add_log (w : world) (l : log_entry) : world :=
  World (chan w) (log w ++ [l]) (clock w) (uuids w).

Definition tick (w : world) : world :=
  World (chan w) (log w) (S (clock w)) (uuids w).

Definition draw (w : world) : world :=
  World (chan w) (log w) (clock w) (S (uuids w)).

(** Modelled from the spec: one call to a collaborator.  It advances the
    clock and raises when the environment says so (transient broker and
    backend errors). *)
Definition io (E : env) (w : world) : world * result unit :=
  match fault E (clock w) with
  | Some e => (tick w, Raise e)
  | None => (tick w, Return tt)
  end.

(** ** Module start-up (sink.py, lines 33-47) *)

Inductive init_step : Type :=
| MakeConnection    (* connection = Connection(broker_url) *)
| MakeExchange      (* es_exchange = Exchange(...) *)
| BindExchange      (* bound_exchange = es_exchange(connection) *)
| DeclareExchange   (* bound_exchange.declare() *)
| MakeQueue         (* es_queue = Queue(...) *).

(** Which module-level names are bound. *)
Record globals : Type := Globals {
  connection : bool;
  es_exchange : bool;
  bound_exchange : bool;
  es_queue : bool
}.

Definition no_globals : globals := Globals false false false false.

Definition run_init_step (s : init_step) (g : globals) : globals :=
  match s with
  | MakeConnection => Globals true (es_exchange g) (bound_exchange g) (es_queue g)
  | MakeExchange => Globals (connection g) true (bound_exchange g) (es_queue g)
  | BindExchange => Globals (connection g) (es_exchange g) true (es_queue g)
  | DeclareExchange => g
  | MakeQueue => Globals (connection g) (es_exchange g) (bound_exchange g) true
  end.

Definition init_steps : list init_step :=
  [MakeConnection; MakeExchange; BindExchange; DeclareExchange; MakeQueue].

(** The body of the module-level [try]: the statements run in order until
    one raises. *)
Fixpoint run_init (startup : init_step -> option exn) (steps : list init_step)
         (g : globals) : globals * result unit :=
  match steps with
  | [] => (g, Return tt)
  | s :: rest =>
      match startup s with
      | Some e => (g, Raise e)
      | None => run_init startup rest (run_init_step s g)
      end
  end.

(** The whole [try ... except Exception as ex: _LOG.exception(ex)]: it
    never raises; it returns the bindings made and the log. *)
Definition module_init (startup : init_step -> option exn)
  : globals * list log_entry :=
  match run_init startup init_steps no_globals with
  | (g, Return _) => (g, [])
  | (g, Raise e) => (g, [LogException e])
  end.

Definition ELASTICSEARCH_QUEUE : string := "elasticsearch".

(** Reading a module-level name. *)
Definition global (bound : bool) (name : string) : result unit :=
  if bound then Return tt
  else Raise (Exn NameError name).

(** ** Publisher (sink.py, lines 50-83) *)

(** Modelled from the spec: the publish interface.  The serialized action
    joins the channel behind the bodies already waiting. *)
Definition publish (c : channel) (body : pyval) : channel :=
  Channel (ready c ++ [body]) (unacked c) (acked c) (next_tag c).

(** The dict literal bound to [action] in [_queue_index_request]. *)
Definition make_action (index doc_type : pyval) (id : string)
           (ttl document : pyval) : pyval :=
  PDict [("_index", index);
         ("_type", doc_type);
         ("_id", PStr id);
         ("_ttl", ttl);
         ("_source", document)].

(** [_queue_index_request(index, doc_type, document, ttl=TTL)]. *)
Definition _queue_index_request (E : env) (g : globals) (w : world)
           (index doc_type document : pyval) (ttl : option pyval)
  : world * result unit :=
  let ttl := match ttl with Some t => t | None => PInt (TTL E) end in
  let action := make_action index doc_type (uuid4 E (uuids w)) ttl document in
  let w := draw w in
  (* with producers[connection].acquire(block=True) as producer: *)
  match global (connection g) "connection" with
  | Raise e => (w, Raise e)
  | Return _ =>
  match io E w with
  | (w, Raise e) => (w, Raise e)
  | (w, Return _) =>
  (* producer.publish(action, routing_key=..., serializer='json',
                      declare=[es_queue]) *)
  match global (es_queue g) "es_queue" with
  | Raise e => (w, Raise e)
  | Return _ =>
  if negb (json_serializable action)
  then (w, Raise (Exn EncodeError "not JSON serializable"))
  else
  match io E w with
  | (w, Raise e) => (w, Raise e)
  | (w, Return _) => (set_chan w (publish (chan w) action), Return tt)
  end end end end.

(** How a celery task ends: normally, or by [put_message.retry()], which
    hands the call back to the task framework for another attempt. *)
Inductive task_outcome : Type :=
| Done
| Retry.

(** The arguments [put_message] reads out of the document:
    [message['dreadfort']['tenant']] and
    [message['dreadfort']['correlation']['pattern']]. *)
Definition routing (msg : pyval) : result (pyval * pyval) :=
  d <- getitem msg "dreadfort" ;;
  index <- getitem d "tenant" ;;
  d' <- getitem msg "dreadfort" ;;
  c <- getitem d' "correlation" ;;
  doc_type <- getitem c "pattern" ;;
  Return (index, doc_type).

(** [put_message(message)]: the call inside [try], and the handler
    [except Exception as ex: _LOG.exception(ex.message);
    put_message.retry()]. *)
Definition put_message (E : env) (g : globals) (w : world) (msg : pyval)
  : world * task_outcome :=
  let attempt :=
    match routing msg with
    | Raise e => (w, Raise e)
    | Return (index, doc_type) =>
        _queue_index_request E g w index doc_type msg None
    end in
  match attempt with
  | (w', Return _) => (w', Done)
  | (w', Raise ex) => (add_log w' (LogExceptionText (message ex)), Retry)
  end.

(** ** Stream reader (sink.py, lines 86-100) *)

(** What resuming a generator gives: the next element, an exception that
    leaves the generator (and finishes it), or the end of the sequence. *)
Inductive gen_result (A : Type) : Type :=
| Yield (a : A)
| Throw (e : exn)
| StopIteration.
Arguments Yield {A} a.
Arguments Throw {A} e.
Arguments StopIteration {A}.

(** Where a generator stands: created and not yet run, suspended at its
    [yield], or finished (by return or by an exception). *)
Inductive gen_state : Type :=
| Fresh
| Suspended
| Finished.

(** Modelled from the spec: [simple_queue.get(block=True,
    timeout=bulk_timeout)], the pull interface.  The oldest ready message
    is delivered, and stays on the channel as un-acknowledged; with none
    ready the wait runs into the timeout, which raises the "no message"
    condition [Empty]. *)
Definition get (E : env) (w : world) : world * result Message :=
  match io E w with
  | (w, Raise e) => (w, Raise e)
  | (w, Return _) =>
      let c := chan w in
      match ready c with
      | [] => (w, Raise (Exn Empty "timed out"))
      | body :: rest =>
          let msg := Msg (next_tag c) body in
          (set_chan w (Channel rest (unacked c ++ [msg]) (acked c)
                               (S (next_tag c))),
           Return msg)
      end
  end.

(** One [next()] on the generator [get_queue_stream(ack_list)].  The first
    resumption enters [with Connection(broker_url)] and builds the
    SimpleQueue; every resumption then runs one turn of [while True]:
    get, append to [ack_list], yield the payload.  Nothing in the body
    catches an exception, so one raised by the broker leaves the
    generator. *)
Definition get_queue_stream (E : env) (w : world) (ack_list : list Message)
           (g : gen_state)
  : world * list Message * gen_state * gen_result pyval :=
  let turn (w : world) :=
    match get E w with
    | (w, Raise e) => (w, ack_list, Finished, Throw e)
    | (w, Return msg) => (w, ack_list ++ [msg], Suspended, Yield (payload msg))
    end in
  match g with
  | Finished => (w, ack_list, Finished, StopIteration)
  | Suspended => turn w
  | Fresh =>
      match io E w with
      | (w, Raise e) => (w, ack_list, Finished, Throw e)
      | (w, Return _) => turn w
      end
  end.

(** ** Batch flusher (sink.py, lines 103-133) *)

(** Modelled from the spec: [islice(actions, n)] consumed to its end, the
    way the bulk primitive buffers up to [n] documents of the reader. *)
Fixpoint islice (E : env) (n : nat) (w : world) (ack_list : list Message)
         (g : gen_state)
  : world * list Message * gen_state * result (list pyval) :=
  match n with
  | 0 => (w, ack_list, g, Return [])
  | S n' =>
      match get_queue_stream E w ack_list g with
      | (w, ack_list, g, Yield doc) =>
          match islice E n' w ack_list g with
          | (w, ack_list, g, Return docs) => (w, ack_list, g, Return (doc :: docs))
          | (w, ack_list, g, Raise e) => (w, ack_list, g, Raise e)
          end
      | (w, ack_list, g, Throw e) => (w, ack_list, g, Raise e)
      | (w, ack_list, g, StopIteration) => (w, ack_list, g, Return [])
      end
  end.

(** The state of one turn of the outer loop of [flush_to_es]: the list
    shared by reader and flusher, the reader, and the results that the
    bulk generator has received and not yet yielded. *)
Record worker : Type := Worker {
  ack_list : list Message;
  actions : gen_state;
  pending : list (bool * pyval)
}.

(** Modelled from the spec: [es_helpers.streaming_bulk(es_client, actions,
    chunk_size)], the bulk submission interface.  Resumed with nothing
    left to yield, it buffers up to [chunk_size] documents, submits them
    as one request and receives one (success, detail) pair per document,
    in order.  It returns [None] when the generator ends (no document
    left). *)
Definition streaming_bulk (E : env) (chunk_size : nat) (w : world) (k : worker)
  : world * worker * result (option (list (bool * pyval))) :=
  match islice E chunk_size w (ack_list k) (actions k) with
  | (w, al, g, Raise e) => (w, Worker al g [], Raise e)
  | (w, al, g, Return []) => (w, Worker al g [], Return None)
  | (w, al, g, Return chunk) =>
      let now := clock w in
      match io E w with
      | (w, Raise e) => (w, Worker al g [], Raise e)
      | (w, Return _) => (w, Worker al g [], Return (Some (es_bulk E now chunk)))
      end
  end.

(** Modelled from the spec: [msg.ack()].  The broker removes for good the
    message with this delivery tag. *)
Definition ack (E : env) (w : world) (msg : Message) : world * result unit :=
  match io E w with
  | (w, Raise e) => (w, Raise e)
  | (w, Return _) =>
      let c := chan w in
      (set_chan w
         (Channel (ready c)
                  (filter (fun m => negb (Nat.eqb (delivery_tag m) (delivery_tag msg)))
                          (unacked c))
                  (acked c ++ [msg])
                  (next_tag c)),
       Return tt)
  end.

(** The loop of [flush_to_es] stands either at the top of [while True] or
    inside [for response in bulker]. *)
Inductive flush_state : Type :=
| Connecting
| Streaming (k : worker).

(** One move inside the [try] of [flush_to_es]; [Raise] when an exception
    leaves the [try] body.
    - At the top: the body up to the [for] builds the client, a new
      [ack_list], the reader and the bulk generator, and logs.
    - In the [for], nothing left to yield: the bulk generator submits the
      next chunk; when it is exhausted the [for] ends, and with it the
      turn of [while True].
    - In the [for], a response at hand: the loop body. *)
Definition try_body (E : env) (w : world) (s : flush_state)
  : world * result flush_state :=
  match s with
  | Connecting =>
      (add_log w (LogError "Post flush"),
       Return (Streaming (Worker [] Fresh [])))
  | Streaming k =>
      match pending k with
      | [] =>
          match streaming_bulk E (BULK_SIZE E) w k with
          | (w, k, Raise ex) => (w, Raise ex)
          | (w, k, Return None) => (w, Return Connecting)
          | (w, k, Return (Some responses)) =>
              (w, Return (Streaming (Worker (ack_list k) (actions k) responses)))
          end
      | response :: rest =>
          (* msg = ack_list.pop(0) *)
          match ack_list k with
          | [] => (w, Raise (Exn IndexError "pop from empty list"))
          | msg :: ack_list' =>
              let k := Worker ack_list' (actions k) rest in
              let msg_ok := fst response in
              if msg_ok then
                match ack E w msg with
                | (w, Raise ex) => (w, Raise ex)
                | (w, Return _) => (w, Return (Streaming k))
                end
              else (w, Return (Streaming k))
          end
      end
  end.

(** One move of [flush_to_es]: the [try] body, and on an exception
    [except Exception as ex: _LOG.exception(ex)], after which
    [while True] goes round again. *)
Definition flush_step (E : env) (w : world) (s : flush_state)
  : world * flush_state :=
  match try_body E w s with
  | (w, Return s') => (w, s')
  | (w, Raise ex) => (add_log w (LogException ex), Connecting)
  end.

(** [flush_to_es()] never returns; [flush_to_es E n w] is where it stands
    after [n] moves, and [flush_from] the same from any point of the loop. *)
Fixpoint flush_from (E : env) (n : nat) (w : world) (s : flush_state)
  : world * flush_state :=
  match n with
  | 0 => (w, s)
  | S n' => let (w', s') := flush_step E w s in flush_from E n' w' s'
  end.

Definition flush_to_es (E : env) (n : nat) (w : world) : world * flush_state :=
  flush_from E n w Connecting.

(** ** What [except Exception] lets through (sink.py, line 132) *)








(** ** Process pool (sink.py, lines 136-154) *)

Record ElasticSearchStreamBulker : Type := Bulker { bulk_size : nat }.


(** A [multiprocessing.Process]: what it is to run, and whether [start()]
    was called on it. *)
Record Process : Type := MkProcess {
  target : env -> nat -> world -> world * flush_state;
  started : bool
}.

Definition Process_start (p : Process) : Process := MkProcess (target p) true.

(** [start(self)]: the processes it made, as they are when it returns.
    Python 2's [map] calls [x.start()] on every element before it
    returns. *)
Definition start (E : env) (self : ElasticSearchStreamBulker) : list Process :=
  let concurrency := cpu_count E in
  let process_list :=
    map (fun x => MkProcess flush_to_es false) (seq 0 concurrency) in
  map (fun x => Process_start x) process_list.

(** ** Formatting of tenant resources
       (src/meniscus/api/tenant/resources.py, lines 25-94) *)

(** The values the formatters are given: JSON-shaped values, and instances
    of the model classes, which keep their attributes in [__dict__]. *)
Inductive pyobj : Type :=
| ONone
| OBool (b : bool)
| OInt (z : Z)
| OStr (s : string)
| OList (items : list pyobj)
| ODict (items : list (string * pyobj))
| OInstance (class : string) (attrs : list (string * pyobj)).

Definition type_name (x : pyobj) : string :=
  match x with
  | ONone => "NoneType"
  | OBool _ => "bool"
  | OInt _ => "int"
  | OStr _ => "str"
  | OList _ => "list"
  | ODict _ => "dict"
  | OInstance class _ => class
  end.

Fixpoint olookup (key : string) (items : list (string * pyobj)) : option pyobj :=
  match items with
  | [] => None
  | (k, v) :: rest => if String.eqb k key then Some v else olookup key rest
  end.

(** [if not isinstance(x, dict): x = x.__dict__]: a dict as it is, an
    instance through its attributes; the built-in values have no
    [__dict__]. *)
Definition as_dict (x : pyobj) : result (list (string * pyobj)) :=
  match x with
  | ODict items => Return items
  | OInstance _ attrs => Return attrs
  | _ =>
      Raise (Exn (OtherError "AttributeError")
                 ("'" ++ type_name x ++ "' object has no attribute '__dict__'"))
  end.

(** [d[key]] on a dict. *)
Definition subscript (d : list (string * pyobj)) (key : string) : result pyobj :=
  match olookup key d with
  | Some v => Return v
  | None => Raise (Exn KeyError key)
  end.

(** The elements a [for] loop goes through: the items of a list, the keys
    of a dict, the characters of a string; nothing else here is
    iterable. *)
Definition iterate (x : pyobj) : result (list pyobj) :=
  match x with
  | OList items => Return items
  | ODict items => Return (map (fun kv : string * pyobj => OStr (fst kv)) items)
  | OStr s =>
      Return (map (fun c => OStr (String c EmptyString)) (list_ascii_of_string s))
  | _ =>
      Raise (Exn TypeError ("'" ++ type_name x ++ "' object is not iterable"))
  end.

(** [for x in items: out.append(f(x))], which stops at the first
    exception. *)
Fixpoint for_each (f : pyobj -> result pyobj) (items : list pyobj)
  : result (list pyobj) :=
  match items with
  | [] => Return []
  | x :: rest =>
      y <- f x ;;
      ys <- for_each f rest ;;
      Return (y :: ys)
  end.

Definition format_tenant (tenant : pyobj) : result pyobj :=
  tenant <- as_dict tenant ;;
  id <- subscript tenant "id" ;;
  tenant_id <- subscript tenant "tenant_id" ;;
  Return (ODict [("id", id); ("tenant_id", tenant_id)]).

Definition format_event_producer (event_producer : pyobj) : result pyobj :=
  event_producer <- as_dict event_producer ;;
  name <- subscript event_producer "name" ;;
  pattern <- subscript event_producer "pattern" ;;
  Return (ODict [("name", name); ("pattern", pattern)]).

Definition format_event_producers (event_producers : pyobj) : result pyobj :=
  items <- iterate event_producers ;;
  formatted_event_producers <- for_each format_event_producer items ;;
  Return (OList formatted_event_producers).

Definition format_host_profile (profile : pyobj) : result pyobj :=
  profile <- as_dict profile ;;
  producers <- subscript profile "event_producers" ;;
  items <- iterate producers ;;
  event_producers <- for_each format_event_producer items ;;
  id <- subscript profile "id" ;;
  name <- subscript profile "name" ;;
  Return (ODict [("id", id);
                 ("name", name);
                 ("event_producers", OList event_producers)]).

Definition format_host_profiles (profiles : pyobj) : result pyobj :=
  items <- iterate profiles ;;
  formatted_profiles <- for_each format_host_profile items ;;
  Return (OList formatted_profiles).

Definition format_host (host : pyobj) : result pyobj :=
  host <- as_dict host ;;
  host_profile <-
    match olookup "profile" host with
    | Some profile => format_host_profile profile
    | None => Return (ODict [])
    end ;;
  id <- subscript host "id" ;;
  hostname <- subscript host "hostname" ;;
  ip_address <- subscript host "ip_address" ;;
  Return (ODict [("id", id);
                 ("hostname", hostname);
                 ("ip_address", ip_address);
                 ("profile", host_profile)]).

Definition format_hosts (hosts : pyobj) : result pyobj :=
  items <- iterate hosts ;;
  formatted_hosts <- for_each format_host items ;;
  Return (OList formatted_hosts).

(** ** Vocabulary of the statements *)

(** The handles the broker makes when it delivers [bodies] in order,
    starting at delivery tag [tag]. *)
Fixpoint tagged (tag : nat) (bodies : list pyval) : list Message :=
  match bodies with
  | [] => []
  | body :: rest => Msg tag body :: tagged (S tag) rest
  end.

(** The messages of [msgs] whose response, at the same position of
    [responses], has success flag [ok]. *)
Fixpoint answered (ok : bool) (responses : list (bool * pyval))
         (msgs : list Message) : list Message :=
  match responses, msgs with
  | r :: responses', m :: msgs' =>
      if Bool.eqb (fst r) ok
      then m :: answered ok responses' msgs'
      else answered ok responses' msgs'
  | _, _ => []
  end.

(** No call made at a clock value in [t0, t0 + n) raises. *)
Definition quiet (E : env) (t0 n : nat) : Prop :=
  forall t, t0 <= t < t0 + n -> fault E t = None.

(** Delivery tags identify the un-acknowledged messages of a channel. *)
Definition chan_wf (c : channel) : Prop :=
  NoDup (map delivery_tag (unacked c)) /\
  Forall (fun m => delivery_tag m < next_tag c) (unacked c).

(** [action[key]] when [action] is a dict that has the key. *)
Definition field (key : string) (v : pyval) : option pyval :=
  match v with
  | PDict items => lookup key items
  | _ => None
  end.

Definition keys (v : pyval) : list string :=
  match v with
  | PDict items => map fst items
  | _ => []
  end.

(** Malformed input: the routing metadata is missing, or the document is
    not JSON-serializable. *)
Definition malformed (msg : pyval) : Prop :=
  (exists e, routing msg = Raise e) \/ json_serializable msg = false.

(** A run of [put_message] calls, one per document. *)
Fixpoint put_messages (E : env) (g : globals) (w : world) (docs : list pyval)
  : world :=
  match docs with
  | [] => w
  | doc :: rest => put_messages E g (fst (put_message E g w doc)) rest
  end.

(** The documents of such a run whose call ended normally, in order. *)
Fixpoint done_docs (E : env) (g : globals) (w : world) (docs : list pyval)
  : list pyval :=
  match docs with
  | [] => []
  | doc :: rest =>
      match put_message E g w doc with
      | (w', Done) => doc :: done_docs E g w' rest
      | (w', Retry) => done_docs E g w' rest
      end
  end.

(** ** A small concrete setting *)

Definition demo_uuid4 (n : nat) : string :=
  string_of_list_ascii (repeat "f"%char n).

(** Three documents per bulk request, four cores, no fault, and a backend
    that rejects the second document of every request. *)
Definition demo_env : env :=
  Env 3600 3 4 demo_uuid4 (fun _ => None)
      (fun _ docs =>
         map (fun j => (negb (Nat.eqb j 1), PNone)) (seq 0 (length docs))).

Definition demo_doc (tenant pattern : string) : pyval :=
  PDict [("dreadfort",
          PDict [("tenant", PStr tenant);
                 ("correlation", PDict [("pattern", PStr pattern)])]);
         ("msg", PStr "session opened")].

Definition all_globals : globals := Globals true true true true.

Definition empty_world : world := World (Channel [] [] [] 0) [] 0 0.

(** The same setting with the backend unreachable from clock value 10 on
    (the time of the first bulk request after [demo_world]). *)
Definition outage_env : env :=
  Env 3600 3 4 demo_uuid4
      (fun t => if Nat.leb 10 t
                then Some (Exn ConnectionError "backend unreachable")
                else None)
      (es_bulk demo_env).


(** A document with its routing metadata and a value JSON cannot carry. *)
Definition opaque_doc : pyval :=
  PDict [("dreadfort",
          PDict [("tenant", PStr "acme");
                 ("correlation", PDict [("pattern", PStr "login")])]);
         ("socket", PObject "<socket object>")].

(** The world after three documents of tenant acme were published. *)
Definition demo_world : world :=
  put_messages demo_env all_globals empty_world
    [demo_doc "acme" "login"; demo_doc "acme" "login"; demo_doc "acme" "login"].

(** The first [n] resumptions of a reader, with the payloads it yielded
    until it ended. *)
Fixpoint stream_prefix (E : env) (n : nat) (w : world)
         (ack_list : list Message) (g : gen_state)
  : world * list Message * gen_state * list pyval :=
  match n with
  | 0 => (w, ack_list, g, [])
  | S n' =>
      match get_queue_stream E w ack_list g with
      | (w, ack_list, g, Yield doc) =>
          let '(w, ack_list, g, docs) := stream_prefix E n' w ack_list g in
          (w, ack_list, g, doc :: docs)
      | (w, ack_list, g, _) => (w, ack_list, g, [])
      end
  end.

(** The calls a reader makes before its first pull: a fresh generator
    opens its connection and queue first. *)
Definition opening (g : gen_state) : nat :=
  match g with
  | Fresh => 1
  | _ => 0
  end.

(** The clock value at which a flusher standing at [w], with nothing
    pending and reader [g], submits its next chunk. *)
Definition submit_time (E : env) (w : world) (g : gen_state) : nat :=
  clock w + opening g + BULK_SIZE E.

(** As many handles are held as responses are pending. *)
Definition aligned (s : flush_state) : Prop :=
  match s with
  | Connecting => True
  | Streaming k => length (ack_list k) = length (pending k)
  end.

(** The backend answers every document of a request, as the bulk
    submission interface says. *)
Definition answers_each (E : env) : Prop :=
  forall (t : nat) (docs : list pyval), length (es_bulk E t docs) = length docs.

(** The bodies a channel holds, waiting, delivered or acknowledged. *)
Definition held (c : channel) : list pyval :=
  ready c ++ map payload (unacked c) ++ map payload (acked c).

(** The handles a worker holds are distinct messages that the channel
    still counts as delivered and un-acknowledged. *)
Definition holds (w : world) (handles : list Message) : Prop :=
  chan_wf (chan w) /\
  NoDup (map delivery_tag handles) /\
  incl handles (unacked (chan w)).

Definition worker_holds (w : world) (s : flush_state) : Prop :=
  match s with
  | Connecting => chan_wf (chan w)
  | Streaming k => holds w (ack_list k)
  end.

(** * Properties *)

(** ** Collaborator calls *)

Lemma io_quiet (E : env) (w : world) :
  fault E (clock w) = None -> io E w = (tick w, Return tt).
Proof. unfold io. intros ->. reflexivity. Qed.


Lemma quiet_here (E : env) (t n : nat) :
  quiet E t (S n) -> fault E t = None.
Proof. intros H. apply H. lia. Qed.

Lemma quiet_next (E : env) (t n : nat) :
  quiet E t (S n) -> quiet E (S t) n.
Proof. intros H u Hu. apply H. lia. Qed.

Lemma quiet_shorter (E : env) (t n m : nat) :
  m <= n -> quiet E t n -> quiet E t m.
Proof. intros Hle H u Hu. apply H. lia. Qed.

Lemma get_delivers (E : env) (body : pyval) (rest : list pyval)
      (u a : list Message) (nt : nat) (l : list log_entry) (c uu : nat) :
  fault E c = None ->
  get E (World (Channel (body :: rest) u a nt) l c uu)
  = (World (Channel rest (u ++ [Msg nt body]) a (S nt)) l (S c) uu,
     Return (Msg nt body)).
Proof. intros H. unfold get, io. simpl. rewrite H. reflexivity. Qed.

Lemma get_times_out (E : env) (u a : list Message) (nt : nat)
      (l : list log_entry) (c uu : nat) :
  fault E c = None ->
  get E (World (Channel [] u a nt) l c uu)
  = (World (Channel [] u a nt) l (S c) uu, Raise (Exn Empty "timed out")).
Proof. intros H. unfold get, io. simpl. rewrite H. reflexivity. Qed.

(** ** Filling a chunk *)

Lemma tagged_length (bodies : list pyval) :
  forall tag, length (tagged tag bodies) = length bodies.
Proof. induction bodies as [|b bs IH]; intros tag; simpl; [|rewrite IH]; reflexivity. Qed.

Lemma tagged_tags (bodies : list pyval) :
  forall tag, map delivery_tag (tagged tag bodies) = seq tag (length bodies).
Proof. induction bodies as [|b bs IH]; intros tag; simpl; [|rewrite IH]; reflexivity. Qed.

Lemma islice_suspended (E : env) (bodies : list pyval) :
  forall (rest : list pyval) (u a : list Message) (nt : nat)
         (l : list log_entry) (c uu : nat) (al : list Message),
    quiet E c (length bodies) ->
    islice E (length bodies) (World (Channel (bodies ++ rest) u a nt) l c uu)
           al Suspended
    = (World (Channel rest (u ++ tagged nt bodies) a (nt + length bodies))
             l (c + length bodies) uu,
       al ++ tagged nt bodies, Suspended, Return bodies).
Proof.
  induction bodies as [|b bs IH]; intros rest u a nt l c uu al Hq.
  - simpl. rewrite !app_nil_r, !Nat.add_0_r. reflexivity.
  - cbn [length islice get_queue_stream app].
    rewrite get_delivers by (eapply quiet_here; exact Hq).
    rewrite IH by (apply quiet_next; exact Hq).
    cbn [tagged]. rewrite <- !app_assoc. cbn [app].
    replace (S nt + length bs) with (nt + S (length bs)) by lia.
    replace (S c + length bs) with (c + S (length bs)) by lia.
    reflexivity.
Qed.

Lemma islice_live (E : env) (g : gen_state) (b : pyval) (bs rest : list pyval)
      (u a : list Message) (nt : nat) (l : list log_entry) (c uu : nat)
      (al : list Message) :
  g <> Finished ->
  quiet E c (opening g + S (length bs)) ->
  islice E (S (length bs)) (World (Channel ((b :: bs) ++ rest) u a nt) l c uu)
         al g
  = (World (Channel rest (u ++ tagged nt (b :: bs)) a (nt + S (length bs)))
           l (c + opening g + S (length bs)) uu,
     al ++ tagged nt (b :: bs), Suspended, Return (b :: bs)).
Proof.
  intros Hg Hq. destruct g; [| |congruence].
  - cbn [opening] in *. cbn [islice get_queue_stream app].
    rewrite io_quiet by (cbn [clock]; eapply quiet_here; exact Hq).
    unfold tick. cbn [chan log clock uuids].
    apply quiet_next in Hq.
    rewrite get_delivers by (eapply quiet_here; exact Hq).
    rewrite islice_suspended by (apply quiet_next; exact Hq).
    cbn [tagged]. rewrite <- !app_assoc. cbn [app].
    replace (S nt + length bs) with (nt + S (length bs)) by lia.
    replace (S (S c) + length bs) with (c + 1 + S (length bs)) by lia.
    reflexivity.
  - cbn [opening] in *. rewrite Nat.add_0_r.
    apply (islice_suspended E (b :: bs)). exact Hq.
Qed.

(** ** One flush cycle *)

Lemma flush_from_add (E : env) (m n : nat) :
  forall (w : world) (s : flush_state),
    flush_from E (m + n) w s
    = flush_from E n (fst (flush_from E m w s)) (snd (flush_from E m w s)).
Proof.
  induction m as [|m IH]; intros w s.
  - reflexivity.
  - cbn [Nat.add flush_from]. destruct (flush_step E w s) as [w' s'].
    apply IH.
Qed.

(** The chunk is submitted: the move made with nothing pending, a live
    reader and a full chunk ready on the channel. *)
Lemma submit_step (E : env) (g : gen_state) (bodies rest : list pyval)
      (u a : list Message) (nt : nat) (l : list log_entry) (c uu : nat)
      (al : list Message) :
  g <> Finished ->
  length bodies = BULK_SIZE E ->
  0 < BULK_SIZE E ->
  quiet E c (opening g + BULK_SIZE E + 1) ->
  flush_step E (World (Channel (bodies ++ rest) u a nt) l c uu)
             (Streaming (Worker al g []))
  = (World (Channel rest (u ++ tagged nt bodies) a (nt + BULK_SIZE E))
           l (c + opening g + BULK_SIZE E + 1) uu,
     Streaming (Worker (al ++ tagged nt bodies) Suspended
                       (es_bulk E (c + opening g + BULK_SIZE E) bodies))).
Proof.
  intros Hg Hlen Hpos Hq.
  destruct bodies as [|b bs]; [simpl in Hlen; lia|].
  unfold flush_step, try_body, streaming_bulk. cbn [pending ack_list actions].
  rewrite <- Hlen in *. cbn [length] in *.
  rewrite islice_live;
    [|exact Hg|eapply quiet_shorter; [|exact Hq]; lia].
  rewrite io_quiet
    by (cbn [clock]; apply Hq; lia).
  unfold tick. cbn [chan log clock uuids ack_list actions].
  replace (S (c + opening g + S (length bs)))
    with (c + opening g + S (length bs) + 1) by lia.
  reflexivity.
Qed.

Lemma ack_removes (pre post : list Message) (m : Message) :
  NoDup (map delivery_tag (pre ++ m :: post)) ->
  filter (fun x => negb (Nat.eqb (delivery_tag x) (delivery_tag m)))
         (pre ++ m :: post)
  = pre ++ post.
Proof.
  intros Hnd. rewrite map_app in Hnd. cbn [map] in Hnd.
  assert (Hother : forall x, In x (pre ++ post) ->
                             delivery_tag x <> delivery_tag m).
  { intros x Hx Heq. apply NoDup_remove_2 in Hnd. apply Hnd.
    rewrite <- Heq, <- map_app. apply in_map. exact Hx. }
  assert (Hkeep : forall xs, (forall x, In x xs -> delivery_tag x <> delivery_tag m) ->
            filter (fun x => negb (Nat.eqb (delivery_tag x) (delivery_tag m))) xs = xs).
  { induction xs as [|x xs IH]; intros Hxs; [reflexivity|].
    cbn [filter].
    destruct (Nat.eqb_spec (delivery_tag x) (delivery_tag m)) as [Heq|_].
    - exfalso. exact (Hxs x (or_introl eq_refl) Heq).
    - cbn [negb]. rewrite IH; [reflexivity|].
      intros y Hy. apply Hxs. right. exact Hy. }
  rewrite filter_app. cbn [filter]. rewrite Nat.eqb_refl. cbn [negb].
  rewrite !Hkeep; [reflexivity| |];
    intros x Hx; apply Hother; apply in_or_app; [right|left]; exact Hx.
Qed.

(** The responses of a chunk are applied: [length responses] moves of the
    [for] body, each popping the oldest handle. *)
Lemma apply_responses (E : env) (responses : list (bool * pyval)) :
  forall (msgs pre post al : list Message) (ps : list (bool * pyval))
         (r : list pyval) (a : list Message) (nt : nat)
         (l : list log_entry) (c uu : nat) (g : gen_state),
    length msgs = length responses ->
    quiet E c (length responses) ->
    NoDup (map delivery_tag (pre ++ msgs ++ post)) ->
    flush_from E (length responses)
               (World (Channel r (pre ++ msgs ++ post) a nt) l c uu)
               (Streaming (Worker (msgs ++ al) g (responses ++ ps)))
    = (World (Channel r (pre ++ answered false responses msgs ++ post)
                      (a ++ answered true responses msgs) nt)
             l (c + length (answered true responses msgs)) uu,
       Streaming (Worker al g ps)).
Proof.
  induction responses as [|resp rs IH];
    intros msgs pre post al ps r a nt l c uu g Hlen Hq Hnd;
    destruct msgs as [|m ms]; try discriminate Hlen.
  - cbn. rewrite app_nil_r, Nat.add_0_r. reflexivity.
  - cbn [length] in *. injection Hlen as Hlen.
    cbn [flush_from app]. unfold flush_step, try_body.
    cbn [pending ack_list actions].
    destruct resp as [ok detail]. cbn [fst answered].
    destruct ok; cbn [Bool.eqb].
    + unfold ack. rewrite io_quiet by (cbn [clock]; eapply quiet_here; exact Hq).
      unfold tick, set_chan. cbn [chan log clock uuids ready unacked acked next_tag].
      rewrite ack_removes by exact Hnd.
      rewrite (IH ms pre post al ps r (a ++ [m]) nt l (S c) uu g Hlen).
      * rewrite <- app_assoc. cbn [app length].
        replace (S c + length (answered true rs ms))
          with (c + S (length (answered true rs ms))) by lia.
        reflexivity.
      * apply quiet_next. exact Hq.
      * rewrite map_app in Hnd. cbn [app map] in Hnd.
        apply NoDup_remove_1 in Hnd. rewrite map_app. exact Hnd.
    + replace (pre ++ m :: ms ++ post) with ((pre ++ [m]) ++ ms ++ post)
        by (rewrite <- app_assoc; reflexivity).
      rewrite (IH ms (pre ++ [m]) post al ps r a nt l c uu g Hlen).
      * rewrite <- app_assoc. reflexivity.
      * eapply quiet_shorter; [|exact Hq]. lia.
      * rewrite <- app_assoc. exact Hnd.
Qed.

Lemma delivered_tags_distinct (c : channel) (bodies : list pyval) :
  chan_wf c ->
  NoDup (map delivery_tag (unacked c ++ tagged (next_tag c) bodies)).
Proof.
  intros [Hnd Hlt]. rewrite map_app, tagged_tags.
  apply NoDup_app; [exact Hnd | apply seq_NoDup |].
  intros t Hin Hseq. apply in_seq in Hseq.
  apply in_map_iff in Hin as [m [<- Hm]].
  rewrite Forall_forall in Hlt. specialize (Hlt m Hm). lia.
Qed.

(** A full cycle, stopped after [k] of its responses: one move submits
    the chunk, [k] moves apply the first [k] responses to the first [k]
    messages pulled. *)
Lemma flush_cycle (E : env) (w : world) (g : gen_state)
      (bodies rest : list pyval) (k : nat) :
  let msgs := tagged (next_tag (chan w)) bodies in
  let responses := es_bulk E (submit_time E w g) bodies in
  g <> Finished ->
  ready (chan w) = bodies ++ rest ->
  length bodies = BULK_SIZE E ->
  0 < BULK_SIZE E ->
  chan_wf (chan w) ->
  quiet E (clock w) (opening g + 2 * BULK_SIZE E + 1) ->
  length responses = BULK_SIZE E ->
  k <= BULK_SIZE E ->
  flush_from E (S k) w (Streaming (Worker [] g []))
  = (World
       (Channel rest
                (unacked (chan w)
                 ++ answered false (firstn k responses) (firstn k msgs)
                 ++ skipn k msgs)
                (acked (chan w)
                 ++ answered true (firstn k responses) (firstn k msgs))
                (next_tag (chan w) + BULK_SIZE E))
       (log w)
       (submit_time E w g + 1
        + length (answered true (firstn k responses) (firstn k msgs)))
       (uuids w),
     Streaming (Worker (skipn k msgs) Suspended (skipn k responses))).
Proof.
  intros msgs responses Hg Hready Hlen Hpos Hwf Hq Hresp Hk.
  pose proof (delivered_tags_distinct (chan w) bodies Hwf) as Hnd.
  fold msgs in Hnd.
  assert (Hmsgs : length msgs = BULK_SIZE E)
    by (unfold msgs; rewrite tagged_length; exact Hlen).
  subst responses. unfold submit_time in *.
  destruct w as [[r u a nt] l c uu].
  cbn [chan ready unacked acked next_tag log clock uuids] in *.
  subst r. cbn [flush_from].
  rewrite submit_step;
    [|exact Hg|exact Hlen|exact Hpos|eapply quiet_shorter; [|exact Hq]; lia].
  cbn [app]. fold msgs.
  set (responses := es_bulk E (c + opening g + BULK_SIZE E) bodies) in *.
  rewrite <- (firstn_skipn k msgs) at 1 2.
  rewrite <- (firstn_skipn k responses) at 1.
  assert (Hk' : length (firstn k responses) = k)
    by (apply firstn_length_le; lia).
  rewrite <- Hk' at 1.
  rewrite (apply_responses E (firstn k responses) (firstn k msgs) u
                           (skipn k msgs) (skipn k msgs) (skipn k responses)).
  - reflexivity.
  - rewrite Hk'. apply firstn_length_le. lia.
  - rewrite Hk'. intros t Ht. apply Hq. lia.
  - rewrite firstn_skipn. exact Hnd.
Qed.

(** ** Responses and the messages they decide *)

Lemma answered_all_ok (responses : list (bool * pyval)) :
  forall msgs : list Message,
    length msgs = length responses ->
    (forall r, In r responses -> fst r = true) ->
    answered true responses msgs = msgs /\ answered false responses msgs = [].
Proof.
  induction responses as [|r rs IH]; intros [|m ms] Hlen Hall;
    try discriminate Hlen; [split; reflexivity|].
  injection Hlen as Hlen.
  destruct (IH ms Hlen) as [IHt IHf].
  { intros r' Hr'. apply Hall. right. exact Hr'. }
  cbn [answered]. rewrite (Hall r (or_introl eq_refl)). cbn [Bool.eqb].
  rewrite IHt, IHf. split; reflexivity.
Qed.

Lemma answered_one_failure (msgs : list Message) :
  forall (responses : list (bool * pyval)) (i : nat),
    i < length msgs ->
    map fst responses
    = map (fun j => negb (Nat.eqb j i)) (seq 0 (length msgs)) ->
    answered false responses msgs = firstn 1 (skipn i msgs) /\
    answered true responses msgs = firstn i msgs ++ skipn (S i) msgs.
Proof.
  induction msgs as [|m ms IH]; intros responses i Hi Hflags;
    [cbn in Hi; lia|].
  destruct responses as [|r rs]; [discriminate Hflags|].
  cbn [length seq map] in Hflags. injection Hflags as Hr Hrs.
  assert (Hlen : length ms = length rs).
  { apply (f_equal (@length bool)) in Hrs.
    rewrite !length_map, length_seq in Hrs. congruence. }
  destruct i as [|i].
  - cbn [Nat.eqb negb] in Hr.
    destruct (answered_all_ok rs ms Hlen) as [Ht Hf].
    { intros r' Hr'. apply (in_map fst) in Hr'. rewrite Hrs in Hr'.
      apply in_map_iff in Hr' as [j [<- Hj]]. apply in_seq in Hj.
      destruct j; [lia|reflexivity]. }
    cbn [answered skipn firstn app]. rewrite Hr. cbn [Bool.eqb].
    rewrite Ht, Hf. destruct ms; split; reflexivity.
  - cbn [Nat.eqb negb] in Hr.
    destruct (IH rs i) as [IHf IHt].
    { cbn [length] in Hi. lia. }
    { rewrite Hrs, <- seq_shift, map_map. reflexivity. }
    cbn [answered skipn firstn app]. rewrite Hr. cbn [Bool.eqb].
    rewrite IHf, IHt. split; reflexivity.
Qed.

Lemma nth_error_split {A : Type} (l : list A) :
  forall (i : nat) (x : A),
    nth_error l i = Some x ->
    firstn 1 (skipn i l) = [x] /\
    firstn (S i) l = firstn i l ++ [x] /\
    l = firstn i l ++ x :: skipn (S i) l.
Proof.
  induction l as [|y l IH]; intros [|i] x Hx; try discriminate Hx.
  - injection Hx as ->. cbn. destruct l; repeat split; reflexivity.
  - cbn [nth_error] in Hx. destruct (IH i x Hx) as [H1 [H2 H3]].
    cbn [skipn]. rewrite H1.
    change (firstn (S (S i)) (y :: l)) with (y :: firstn (S i) l).
    rewrite H2. split; [reflexivity|split; [reflexivity|]].
    change (firstn (S i) (y :: l)) with (y :: firstn i l).
    change (skipn (S (S i)) (y :: l)) with (skipn (S i) l).
    cbn [app]. f_equal. exact H3.
Qed.

Lemma answered_snoc (ok : bool) (rs : list (bool * pyval)) :
  forall (ms : list Message) (r : bool * pyval) (m : Message),
    length ms = length rs ->
    answered ok (rs ++ [r]) (ms ++ [m])
    = answered ok rs ms ++ (if Bool.eqb (fst r) ok then [m] else []).
Proof.
  induction rs as [|r0 rs IH]; intros [|m0 ms] r m Hlen;
    try discriminate Hlen.
  - cbn. destruct (Bool.eqb (fst r) ok); reflexivity.
  - injection Hlen as Hlen. cbn [app answered].
    rewrite (IH ms r m Hlen).
    destruct (Bool.eqb (fst r0) ok); reflexivity.
Qed.

Lemma tagged_in (bodies : list pyval) (tag : nat) (m : Message) :
  In m (tagged tag bodies) -> tag <= delivery_tag m.
Proof.
  intros Hm. apply (in_map delivery_tag) in Hm.
  rewrite tagged_tags in Hm. apply in_seq in Hm. lia.
Qed.

Lemma pulled_not_unacked_before (c : channel) (bodies : list pyval) (m : Message) :
  chan_wf c -> In m (tagged (next_tag c) bodies) -> ~ In m (unacked c).
Proof.
  intros [_ Hlt] Hm Hu. apply tagged_in in Hm.
  rewrite Forall_forall in Hlt. specialize (Hlt m Hu). lia.
Qed.

(** ** The channel keeps its delivery tags distinct *)

Lemma io_chan (E : env) (w : world) : chan (fst (io E w)) = chan w.
Proof. unfold io. destruct (fault E (clock w)); reflexivity. Qed.

Lemma get_wf (E : env) (w : world) :
  chan_wf (chan w) -> chan_wf (chan (fst (get E w))).
Proof.
  intros Hwf. unfold get. pose proof (io_chan E w) as Hio.
  destruct (io E w) as [w1 [[]|e]]; cbn [fst] in *; rewrite <- Hio in Hwf;
    [|exact Hwf].
  destruct (ready (chan w1)) as [|body rest]; [exact Hwf|].
  destruct Hwf as [Hnd Hlt]. cbn [fst set_chan chan]. split.
  - cbn [unacked]. rewrite map_app. cbn [map delivery_tag].
    apply NoDup_app; [exact Hnd|repeat constructor; intros []|].
    intros t Hin [<-|[]]. apply in_map_iff in Hin as [m [Hm Hin]].
    rewrite Forall_forall in Hlt. specialize (Hlt m Hin). lia.
  - cbn [unacked next_tag]. apply Forall_app. split.
    + eapply Forall_impl; [|exact Hlt]. cbv beta. intros m Hm. lia.
    + repeat constructor.
Qed.

Lemma ack_wf (E : env) (w : world) (msg : Message) :
  chan_wf (chan w) -> chan_wf (chan (fst (ack E w msg))).
Proof.
  intros Hwf. unfold ack. pose proof (io_chan E w) as Hio.
  destruct (io E w) as [w1 [[]|e]]; cbn [fst] in *; rewrite <- Hio in Hwf;
    [|exact Hwf].
  destruct Hwf as [Hnd Hlt]. cbn [set_chan chan unacked next_tag].
  set (keep := fun m => negb (Nat.eqb (delivery_tag m) (delivery_tag msg))).
  split.
  - induction (unacked (chan w1)) as [|m ms IH]; [constructor|].
    cbn [map] in Hnd. apply NoDup_cons_iff in Hnd as [Hm Hms].
    apply Forall_cons_iff in Hlt as [_ Hlt].
    cbn [filter]. destruct (keep m); [|apply IH; assumption].
    cbn [map]. constructor; [|apply IH; assumption].
    intros Hin. apply Hm. apply in_map_iff in Hin as [x [Hx Hin]].
    apply filter_In in Hin as [Hin _]. rewrite <- Hx. apply in_map. exact Hin.
  - rewrite Forall_forall in *. intros m Hm.
    apply filter_In in Hm as [Hm _]. apply Hlt. exact Hm.
Qed.

Lemma get_queue_stream_wf (E : env) (w : world) (al : list Message)
      (g : gen_state) :
  chan_wf (chan w) ->
  let '(w', _, _, _) := get_queue_stream E w al g in chan_wf (chan w').
Proof.
  intros Hwf.
  assert (Hturn : forall w0, chan_wf (chan w0) ->
    let '(w', _, _, _) :=
      (let (w1, r) := get E w0 in
       match r with
       | Return msg => (w1, al ++ [msg], Suspended, Yield (payload msg))
       | Raise e => (w1, al, Finished, Throw e)
       end) in chan_wf (chan w')).
  { intros w0 H0. pose proof (get_wf E w0 H0) as Hg.
    destruct (get E w0) as [w1 [msg|e]]; exact Hg. }
  unfold get_queue_stream. destruct g.
  - pose proof (io_chan E w) as Hio.
    destruct (io E w) as [w0 [[]|e]]; cbn [fst] in Hio; rewrite <- Hio in Hwf;
      [apply Hturn|]; exact Hwf.
  - apply Hturn. exact Hwf.
  - exact Hwf.
Qed.

Lemma islice_wf (E : env) (n : nat) :
  forall (w : world) (al : list Message) (g : gen_state),
    chan_wf (chan w) ->
    let '(w', _, _, _) := islice E n w al g in chan_wf (chan w').
Proof.
  induction n as [|n IH]; intros w al g Hwf; [exact Hwf|].
  cbn [islice]. pose proof (get_queue_stream_wf E w al g Hwf) as Hone.
  destruct (get_queue_stream E w al g) as [[[w1 al1] g1] [doc|e|]];
    try exact Hone.
  specialize (IH w1 al1 g1 Hone).
  destruct (islice E n w1 al1 g1) as [[[w2 al2] g2] [docs|e]]; exact IH.
Qed.

Lemma flush_step_wf (E : env) (w : world) (s : flush_state) :
  chan_wf (chan w) -> chan_wf (chan (fst (flush_step E w s))).
Proof.
  intros Hwf. unfold flush_step, try_body.
  destruct s as [|[al g ps]]; [exact Hwf|].
  cbn [pending ack_list actions]. destruct ps as [|[ok detail] ps].
  - unfold streaming_bulk. cbn [ack_list actions].
    pose proof (islice_wf E (BULK_SIZE E) w al g Hwf) as Hfill.
    destruct (islice E (BULK_SIZE E) w al g) as [[[w1 al1] g1] [docs|e]];
      [|exact Hfill].
    destruct docs as [|doc docs]; [exact Hfill|].
    pose proof (io_chan E w1) as Hio.
    destruct (io E w1) as [w2 [[]|e]]; cbn [fst add_log chan] in *;
      rewrite Hio; exact Hfill.
  - destruct al as [|m al]; [exact Hwf|]. cbn [fst].
    destruct ok; [|exact Hwf].
    pose proof (ack_wf E w m Hwf) as Hack.
    destruct (ack E w m) as [w1 [[]|e]]; exact Hack.
Qed.

Lemma flush_from_wf (E : env) (n : nat) :
  forall (w : world) (s : flush_state),
    chan_wf (chan w) -> chan_wf (chan (fst (flush_from E n w s))).
Proof.
  induction n as [|n IH]; intros w s Hwf; [exact Hwf|].
  cbn [flush_from]. pose proof (flush_step_wf E w s Hwf) as Hstep.
  destruct (flush_step E w s) as [w1 s1]. apply IH. exact Hstep.
Qed.

(** * The claims *)

(** C1: Partial-batch correctness.  A flusher with nothing pending
    submits a full chunk of [BULK_SIZE] documents and the backend reports
    failure for the document at position [i] only.  Once the responses of
    the chunk are processed, the message at position [i] is the only one of
    the batch left un-acknowledged on the channel; every other message of
    the batch is acknowledged, and gone from the un-acknowledged ones.
    The channel is left as the next batch needs it. *)
Theorem partial_batch_leaves_only_the_failed_message
        (E : env) (w : world) (g : gen_state) (bodies rest : list pyval)
        (i : nat) :
  let msgs := tagged (next_tag (chan w)) bodies in
  let after := flush_from E (S (BULK_SIZE E)) w (Streaming (Worker [] g [])) in
  g <> Finished ->
  ready (chan w) = bodies ++ rest ->
  length bodies = BULK_SIZE E ->
  chan_wf (chan w) ->
  quiet E (clock w) (opening g + 2 * BULK_SIZE E + 1) ->
  i < BULK_SIZE E ->
  map fst (es_bulk E (submit_time E w g) bodies)
  = map (fun j => negb (Nat.eqb j i)) (seq 0 (BULK_SIZE E)) ->
  exists failed,
    nth_error msgs i = Some failed /\
    snd after = Streaming (Worker [] Suspended []) /\
    ready (chan (fst after)) = rest /\
    unacked (chan (fst after)) = unacked (chan w) ++ [failed] /\
    acked (chan (fst after))
    = acked (chan w) ++ firstn i msgs ++ skipn (S i) msgs /\
    (forall m, In m msgs -> m <> failed ->
               In m (acked (chan (fst after))) /\
               ~ In m (unacked (chan (fst after)))) /\
    chan_wf (chan (fst after)).
Proof.
  intros msgs after Hg Hready Hlen Hwf Hq Hi Hflags.
  pose proof (flush_from_wf E (S (BULK_SIZE E)) w (Streaming (Worker [] g []))
                            Hwf) as Hwf'.
  fold after in Hwf'.
  assert (Hmsgs : length msgs = BULK_SIZE E)
    by (unfold msgs; rewrite tagged_length; exact Hlen).
  assert (Hresp : length (es_bulk E (submit_time E w g) bodies) = BULK_SIZE E).
  { apply (f_equal (@length bool)) in Hflags.
    rewrite !length_map, length_seq in Hflags. exact Hflags. }
  destruct (nth_error msgs i) as [failed|] eqn:Hnth;
    [|apply nth_error_None in Hnth; lia].
  destruct (nth_error_split msgs i failed Hnth) as [Hone [_ Hsplit]].
  destruct (answered_one_failure msgs (es_bulk E (submit_time E w g) bodies) i)
    as [Hfalse Htrue];
    [lia|rewrite Hmsgs; exact Hflags|].
  assert (Hrun := flush_cycle E w g bodies rest (BULK_SIZE E) Hg Hready Hlen
                              ltac:(lia) Hwf Hq Hresp (le_n _)).
  cbv zeta in Hrun. fold msgs in Hrun.
  rewrite !(firstn_all2 (n := BULK_SIZE E)) in Hrun by lia.
  rewrite !(skipn_all2 (n := BULK_SIZE E)) in Hrun by lia.
  rewrite Hfalse, Htrue, Hone, app_nil_r in Hrun.
  exists failed. subst after. rewrite Hrun.
  cbn [fst snd chan ready unacked acked].
  split; [reflexivity|]. split; [reflexivity|]. split; [reflexivity|].
  split; [reflexivity|]. split; [reflexivity|].
  split; [|rewrite Hrun in Hwf'; exact Hwf'].
  intros m Hm Hother. split.
  - rewrite Hsplit in Hm. rewrite in_app_iff in Hm. cbn [In] in Hm.
    rewrite !in_app_iff. right.
    destruct Hm as [Hm|[Hm|Hm]]; [left; exact Hm|congruence|right; exact Hm].
  - intros Hin. rewrite in_app_iff in Hin. cbn [In] in Hin.
    destruct Hin as [Hin|[Hin|[]]]; [|congruence].
    exact (pulled_not_unacked_before (chan w) bodies m Hwf Hm Hin).
Qed.

Lemma partial_batch_witness :
  exists failed,
    nth_error (tagged 0 (ready (chan demo_world))) 1 = Some failed /\
    unacked (chan (fst (flush_from demo_env 4 demo_world
                                   (Streaming (Worker [] Fresh [])))))
    = [failed].
Proof.
  destruct (partial_batch_leaves_only_the_failed_message
              demo_env demo_world Fresh (ready (chan demo_world)) [] 1)
    as [failed [Hnth [_ [_ [Hun _]]]]].
  - discriminate.
  - reflexivity.
  - reflexivity.
  - split; constructor.
  - intros t _. reflexivity.
  - simpl. lia.
  - reflexivity.
  - exists failed. split; [exact Hnth | exact Hun].
Defined.

(** The reader appends the handle of what it yields, and nothing else. *)
Lemma get_queue_stream_appends (E : env) (w : world) (al : list Message)
      (g : gen_state) :
  let '(_, al', _, out) := get_queue_stream E w al g in
  match out with
  | Yield doc => exists msg, al' = al ++ [msg] /\ payload msg = doc
  | _ => al' = al
  end.
Proof.
  unfold get_queue_stream. destruct g.
  - destruct (io E w) as [w0 [[]|e]]; [|reflexivity].
    destruct (get E w0) as [w1 [msg|e]]; [|reflexivity].
    exists msg. split; reflexivity.
  - destruct (get E w) as [w1 [msg|e]]; [|reflexivity].
    exists msg. split; reflexivity.
  - reflexivity.
Qed.

Lemma stream_prefix_aligned (E : env) (n : nat) :
  forall (w : world) (al : list Message) (g : gen_state),
    let '(_, al', _, docs) := stream_prefix E n w al g in
    exists msgs, al' = al ++ msgs /\ docs = map payload msgs.
Proof.
  induction n as [|n IH]; intros w al g.
  - cbn. exists []. rewrite app_nil_r. split; reflexivity.
  - cbn [stream_prefix].
    pose proof (get_queue_stream_appends E w al g) as Hone.
    destruct (get_queue_stream E w al g) as [[[w1 al1] g1] [doc|e|]];
      try (subst al1; exists []; rewrite app_nil_r; split; reflexivity).
    destruct Hone as [msg [-> <-]].
    specialize (IH w1 (al ++ [msg]) g1).
    destruct (stream_prefix E n w1 (al ++ [msg]) g1) as [[[w2 al2] g2] docs].
    destruct IH as [msgs [-> ->]].
    exists (msg :: msgs). rewrite <- app_assoc. split; reflexivity.
Qed.

Lemma islice_aligned (E : env) (n : nat) :
  forall (w : world) (al : list Message) (g : gen_state),
    let '(_, al', _, r) := islice E n w al g in
    exists msgs,
      al' = al ++ msgs /\
      match r with
      | Return docs => docs = map payload msgs
      | Raise _ => True
      end.
Proof.
  induction n as [|n IH]; intros w al g.
  - cbn. exists []. rewrite app_nil_r. split; reflexivity.
  - cbn [islice].
    pose proof (get_queue_stream_appends E w al g) as Hone.
    destruct (get_queue_stream E w al g) as [[[w1 al1] g1] [doc|e|]];
      try (subst al1; exists []; rewrite app_nil_r; split; [reflexivity|]);
      try exact I; try reflexivity.
    destruct Hone as [msg [-> <-]].
    specialize (IH w1 (al ++ [msg]) g1).
    destruct (islice E n w1 (al ++ [msg]) g1) as [[[w2 al2] g2] [docs|e]];
      destruct IH as [msgs [-> Hdocs]];
      exists (msg :: msgs); rewrite <- app_assoc; (split; [reflexivity|]).
    + rewrite Hdocs. reflexivity.
    + exact I.
Qed.

Lemma flush_step_aligned (E : env) (w : world) (s : flush_state) :
  answers_each E -> aligned s -> aligned (snd (flush_step E w s)).
Proof.
  intros Hbulk Hs. unfold flush_step, try_body.
  destruct s as [|[al g ps]]; [reflexivity|].
  cbn [aligned ack_list pending actions] in *.
  destruct ps as [|[ok detail] ps].
  - destruct al; [|discriminate Hs].
    unfold streaming_bulk. cbn [ack_list actions].
    pose proof (islice_aligned E (BULK_SIZE E) w [] g) as Hfill.
    destruct (islice E (BULK_SIZE E) w [] g) as [[[w1 al1] g1] [docs|e]];
      [|exact I].
    destruct Hfill as [msgs [-> ->]]. cbn [app].
    destruct msgs as [|m msgs]; [exact I|]. cbn [map].
    destruct (io E w1) as [w2 [[]|e]]; [|exact I].
    cbn [snd aligned ack_list pending].
    rewrite Hbulk. cbn [length]. rewrite length_map. reflexivity.
  - destruct al as [|m al]; [discriminate Hs|].
    injection Hs as Hs. cbn [fst].
    destruct ok.
    + destruct (ack E w m) as [w1 [[]|e]]; [exact Hs|exact I].
    + exact Hs.
Qed.

Lemma flush_from_aligned (E : env) (n : nat) :
  forall (w : world) (s : flush_state),
    answers_each E -> aligned s -> aligned (snd (flush_from E n w s)).
Proof.
  induction n as [|n IH]; intros w s Hbulk Hs; [exact Hs|].
  cbn [flush_from].
  pose proof (flush_step_aligned E w s Hbulk Hs) as Hstep.
  destruct (flush_step E w s) as [w' s']. apply IH; assumption.
Qed.

Lemma flush_from_last (E : env) (n : nat) (w : world) (s : flush_state) :
  flush_from E (S n) w s
  = flush_step E (fst (flush_from E n w s)) (snd (flush_from E n w s)).
Proof.
  replace (S n) with (n + 1) by lia. rewrite flush_from_add.
  cbn [flush_from].
  destruct (flush_step E (fst (flush_from E n w s)) (snd (flush_from E n w s))).
  reflexivity.
Qed.

Lemma nth_error_skipn {A : Type} (l : list A) :
  forall (i : nat) (x : A),
    nth_error l i = Some x -> skipn i l = x :: skipn (S i) l.
Proof.
  induction l as [|y l IH]; intros [|i] x Hx; try discriminate Hx.
  - injection Hx as ->. reflexivity.
  - cbn [nth_error] in Hx. change (skipn (S i) (y :: l)) with (skipn i l).
    rewrite (IH i x Hx). reflexivity.
Qed.

(** C2: Order-preserving acknowledgement.  The reader appends a handle
    for every payload it yields, in the same order: after any number of
    resumptions the payloads yielded are the payloads of the handles
    appended.  The flusher pops the oldest handle for every response: in a
    cycle over a full chunk, when the response at position [k] comes up the
    handle at the head of the list is the message pulled [k]-th; the move
    acknowledges that message if the response reports success and no other,
    and leaves the messages pulled after it un-acknowledged.  With a
    backend that answers every document, the loop holds at every point as
    many handles as it has responses pending. *)
Theorem acknowledgement_follows_pull_order (E : env) :
  (forall (n : nat) (w : world) (al : list Message) (g : gen_state),
      let '(_, al', _, docs) := stream_prefix E n w al g in
      exists msgs, al' = al ++ msgs /\ docs = map payload msgs)
  /\
  (forall (w : world) (g : gen_state) (bodies rest : list pyval) (k : nat),
      let msgs := tagged (next_tag (chan w)) bodies in
      let responses := es_bulk E (submit_time E w g) bodies in
      let before := flush_from E (S k) w (Streaming (Worker [] g [])) in
      let after := flush_step E (fst before) (snd before) in
      g <> Finished ->
      ready (chan w) = bodies ++ rest ->
      length bodies = BULK_SIZE E ->
      chan_wf (chan w) ->
      quiet E (clock w) (opening g + 2 * BULK_SIZE E + 1) ->
      length responses = BULK_SIZE E ->
      k < BULK_SIZE E ->
      exists msg response,
        nth_error msgs k = Some msg /\
        nth_error responses k = Some response /\
        snd before
        = Streaming (Worker (msg :: skipn (S k) msgs) Suspended
                            (response :: skipn (S k) responses)) /\
        snd after
        = Streaming (Worker (skipn (S k) msgs) Suspended
                            (skipn (S k) responses)) /\
        acked (chan (fst before))
        = acked (chan w) ++ answered true (firstn k responses) (firstn k msgs) /\
        acked (chan (fst after))
        = acked (chan (fst before)) ++ (if fst response then [msg] else []) /\
        (fst response = false ->
         unacked (chan (fst after)) = unacked (chan (fst before))) /\
        (forall m, In m (skipn (S k) msgs) -> In m (unacked (chan (fst after)))))
  /\
  (forall (n : nat) (w : world),
      answers_each E -> aligned (snd (flush_to_es E n w))).
Proof.
  split; [intros n; apply stream_prefix_aligned|].
  split; [|intros n w Hbulk; apply flush_from_aligned; [exact Hbulk|exact I]].
  intros w g bodies rest k msgs responses before after
         Hg Hready Hlen Hwf Hq Hresp Hk.
  assert (Hmsgs : length msgs = BULK_SIZE E)
    by (unfold msgs; rewrite tagged_length; exact Hlen).
  destruct (nth_error msgs k) as [msg|] eqn:Hmsg;
    [|apply nth_error_None in Hmsg; lia].
  destruct (nth_error responses k) as [response|] eqn:Hr;
    [|apply nth_error_None in Hr; lia].
  exists msg, response.
  assert (Hb := flush_cycle E w g bodies rest k Hg Hready Hlen
                            ltac:(lia) Hwf Hq Hresp ltac:(lia)).
  assert (Ha := flush_cycle E w g bodies rest (S k) Hg Hready Hlen
                            ltac:(lia) Hwf Hq Hresp ltac:(lia)).
  cbv zeta in Hb, Ha. fold msgs responses in Hb, Ha.
  rewrite flush_from_last in Ha. fold before after in Hb, Ha.
  destruct (nth_error_split msgs k msg Hmsg) as [_ [Hfm _]].
  destruct (nth_error_split responses k response Hr) as [_ [Hfr _]].
  assert (Hlenk : length (firstn k msgs) = length (firstn k responses))
    by (rewrite !length_firstn; lia).
  rewrite Hfm, Hfr, !answered_snoc in Ha by exact Hlenk.
  rewrite (nth_error_skipn msgs k msg Hmsg) in Hb.
  rewrite (nth_error_skipn responses k response Hr) in Hb.
  rewrite Ha, Hb. cbn [fst snd chan acked unacked].
  repeat split; try reflexivity.
  - rewrite <- app_assoc. destruct (fst response); reflexivity.
  - intros Hfalse. rewrite Hfalse. cbn [Bool.eqb].
    rewrite <- !app_assoc. reflexivity.
  - intros m Hm. rewrite !in_app_iff. right. right. exact Hm.
Qed.

Lemma acknowledgement_follows_pull_order_witness :
  exists msg response,
    nth_error (tagged 0 (ready (chan demo_world))) 1 = Some msg /\
    nth_error (es_bulk demo_env (submit_time demo_env demo_world Fresh)
                       (ready (chan demo_world))) 1 = Some response /\
    snd (flush_from demo_env 2 demo_world (Streaming (Worker [] Fresh [])))
    = Streaming (Worker (msg :: skipn 2 (tagged 0 (ready (chan demo_world))))
                        Suspended
                        (response :: skipn 2
                           (es_bulk demo_env
                                    (submit_time demo_env demo_world Fresh)
                                    (ready (chan demo_world))))).
Proof.
  destruct (proj1 (proj2 (acknowledgement_follows_pull_order demo_env))
                  demo_world Fresh (ready (chan demo_world)) [] 1)
    as [msg [response [Hm [Hr [Hb _]]]]].
  - discriminate.
  - reflexivity.
  - reflexivity.
  - split; constructor.
  - intros t _. reflexivity.
  - reflexivity.
  - simpl. lia.
  - exists msg, response. repeat split; assumption.
Defined.

(** C3, as the code has it: A pull that times out with no message
    available raises [Empty] out of the reader's sequence and ends the
    sequence.  The owning worker's loop is not terminated by it: the
    handler of [flush_to_es] logs the exception and the next turn of the
    loop starts again with a new list and a new reader. *)
Theorem timeout_ends_the_reader_not_the_worker
        (E : env) (w : world) (al : list Message) (g : gen_state) :
  let timed_out := World (chan w) (log w) (clock w + opening g + 1) (uuids w) in
  g <> Finished ->
  ready (chan w) = [] ->
  quiet E (clock w) (opening g + 1) ->
  get_queue_stream E w al g
  = (timed_out, al, Finished, Throw (Exn Empty "timed out")) /\
  snd (get_queue_stream E timed_out al Finished) = StopIteration /\
  (0 < BULK_SIZE E ->
   flush_from E 2 w (Streaming (Worker al g []))
   = (add_log (add_log timed_out (LogException (Exn Empty "timed out")))
              (LogError "Post flush"),
      Streaming (Worker [] Fresh []))).
Proof.
  intros timed_out Hg Hready Hq.
  assert (Hnext : get_queue_stream E w al g
                  = (timed_out, al, Finished, Throw (Exn Empty "timed out"))).
  { subst timed_out. destruct w as [[r u a nt] l c uu].
    cbn [chan ready log clock uuids] in *. subst r.
    unfold get_queue_stream. destruct g; [| |congruence]; cbn [opening] in *.
    - rewrite io_quiet by (cbn [clock]; apply Hq; lia).
      unfold tick. cbn [chan log clock uuids].
      rewrite get_times_out by (apply Hq; lia).
      replace (c + 1 + 1) with (S (S c)) by lia. reflexivity.
    - rewrite get_times_out by (apply Hq; lia).
      replace (c + 0 + 1) with (S c) by lia. reflexivity. }
  split; [exact Hnext|]. split; [reflexivity|].
  intros Hpos. cbn [flush_from]. unfold flush_step at 1.
  unfold try_body, streaming_bulk. cbn [pending ack_list actions].
  destruct (BULK_SIZE E) as [|n]; [lia|].
  cbn [islice]. rewrite Hnext. reflexivity.
Qed.

Lemma timeout_ends_the_reader_not_the_worker_witness :
  flush_from demo_env 2 empty_world (Streaming (Worker [] Suspended []))
  = (World (Channel [] [] [] 0)
           [LogException (Exn Empty "timed out"); LogError "Post flush"] 1 0,
     Streaming (Worker [] Fresh [])).
Proof.
  refine (proj2 (proj2 (timeout_ends_the_reader_not_the_worker
                          demo_env empty_world [] Suspended _ _ _)) _).
  - discriminate.
  - reflexivity.
  - intros t _. reflexivity.
  - simpl. lia.
Defined.

(** C3, as the specification states it, fails: on an empty channel the
    pull times out, the exception leaves the reader, and the reader is
    finished, so that its sequence has ended. *)
Lemma timeout_raises_out_of_the_stream :
  let '(w', al', g', out) :=
    get_queue_stream demo_env empty_world [] Suspended in
  out = Throw (Exn Empty "timed out") /\
  g' = Finished /\
  snd (get_queue_stream demo_env w' al' g') = StopIteration.
Proof. repeat split; reflexivity. Qed.







(** ** Publisher *)

Lemma queue_index_request_cases (E : env) (g : globals) (w : world)
      (index doc_type document : pyval) (ttl : option pyval) :
  let action :=
    make_action index doc_type (uuid4 E (uuids w))
                (match ttl with Some t => t | None => PInt (TTL E) end)
                document in
  let '(w', r) := _queue_index_request E g w index doc_type document ttl in
  log w' = log w /\
  uuids w' = S (uuids w) /\
  match r with
  | Return _ =>
      chan w' = publish (chan w) action /\
      json_serializable action = true /\
      connection g = true /\ es_queue g = true
  | Raise _ => chan w' = chan w
  end.
Proof.
  destruct w as [c l t uu].
  unfold _queue_index_request, global, io, draw, tick, set_chan.
  cbn [chan log clock uuids].
  destruct (connection g); [|repeat split; reflexivity].
  destruct (fault E t); [repeat split; reflexivity|].
  destruct (es_queue g); [|repeat split; reflexivity].
  destruct (json_serializable _) eqn:Hser; cbn [negb];
    [|repeat split; reflexivity].
  cbn [chan log clock uuids].
  destruct (fault E (S t)); repeat split; reflexivity.
Qed.

Lemma unserializable_source (index doc_type ttl document : pyval) (id : string) :
  json_serializable document = false ->
  json_serializable (make_action index doc_type id ttl document) = false.
Proof.
  intros H. cbn. rewrite H.
  destruct (json_serializable index), (json_serializable doc_type),
    (json_serializable ttl); reflexivity.
Qed.

(** C5, as the code has it: A document whose queuing fails because it is
    malformed (routing metadata missing, or not JSON-serializable) goes
    through the one handler of [put_message]: the failure is logged and
    the call is handed to the task framework for a retry; the call
    publishes nothing. *)
Theorem malformed_input_is_logged_and_retried
        (E : env) (g : globals) (w : world) (msg : pyval) :
  malformed msg ->
  snd (put_message E g w msg) = Retry /\
  chan (fst (put_message E g w msg)) = chan w /\
  exists text,
    log (fst (put_message E g w msg)) = log w ++ [LogExceptionText text].
Proof.
  intros Hbad. unfold put_message.
  destruct (routing msg) as [[index doc_type]|e] eqn:Hroute.
  - destruct Hbad as [[e He]|Hser]; [congruence|].
    pose proof (queue_index_request_cases E g w index doc_type msg None) as Hq.
    cbv zeta in Hq.
    destruct (_queue_index_request E g w index doc_type msg None)
      as [w' [[]|e]].
    + destruct Hq as [_ [_ [_ [Hok _]]]].
      rewrite unserializable_source in Hok by exact Hser. discriminate Hok.
    + destruct Hq as [Hlog [_ Hchan]]. cbn [fst snd add_log chan log].
      rewrite Hlog. repeat split; [exact Hchan|].
      exists (message e). reflexivity.
  - cbn [fst snd add_log chan log]. repeat split.
    exists (message e). reflexivity.
Qed.

Lemma malformed_input_is_logged_and_retried_witness :
  snd (put_message demo_env all_globals empty_world (PDict [])) = Retry.
Proof.
  refine (proj1 (malformed_input_is_logged_and_retried
                   demo_env all_globals empty_world (PDict []) _)).
  left. exists (Exn KeyError "dreadfort"). reflexivity.
Defined.

(** C5, as the specification states it, fails: a document without routing
    metadata and a document that JSON cannot serialize are both retried. *)
Lemma malformed_input_is_retried :
  (exists e, routing (PDict []) = Raise e) /\
  put_message demo_env all_globals empty_world (PDict [])
  = (add_log empty_world (LogExceptionText "dreadfort"), Retry) /\
  json_serializable opaque_doc = false /\
  snd (put_message demo_env all_globals empty_world opaque_doc) = Retry.
Proof.
  split; [exists (Exn KeyError "dreadfort"); reflexivity|].
  repeat split; reflexivity.
Qed.

Lemma routing_reads (msg index doc_type : pyval) :
  routing msg = Return (index, doc_type) ->
  (d <- getitem msg "dreadfort" ;; getitem d "tenant") = Return index /\
  (d <- getitem msg "dreadfort" ;;
   c <- getitem d "correlation" ;; getitem c "pattern") = Return doc_type.
Proof.
  unfold routing, bind.
  destruct (getitem msg "dreadfort") as [d|e]; [|discriminate].
  destruct (getitem d "tenant") as [i|e]; [|discriminate].
  destruct (getitem d "correlation") as [c|e]; [|discriminate].
  destruct (getitem c "pattern") as [t|e]; [|discriminate].
  intros H. injection H as -> ->. split; reflexivity.
Qed.

(** C7: The envelope of a queued document.  A call of
    [_queue_index_request] that succeeds appends to the channel one dict
    with exactly the keys _index, _type, _id, _ttl and _source, whose _ttl
    is the argument [ttl] or, without one, the configured [TTL].  For
    [put_message], which passes no [ttl], _index is the document's own
    ['dreadfort']['tenant'], _type its own
    ['dreadfort']['correlation']['pattern'], _ttl the configured [TTL] and
    _source the document itself. *)
Theorem queued_envelope (E : env) (g : globals) (w : world) :
  (forall (index doc_type document : pyval) (ttl : option pyval) (w' : world),
      _queue_index_request E g w index doc_type document ttl = (w', Return tt) ->
      exists action,
        ready (chan w') = ready (chan w) ++ [action] /\
        keys action = ["_index"; "_type"; "_id"; "_ttl"; "_source"] /\
        field "_index" action = Some index /\
        field "_type" action = Some doc_type /\
        field "_id" action = Some (PStr (uuid4 E (uuids w))) /\
        field "_ttl" action
        = Some (match ttl with Some t => t | None => PInt (TTL E) end) /\
        field "_source" action = Some document)
  /\
  (forall (msg : pyval) (w' : world),
      put_message E g w msg = (w', Done) ->
      exists index doc_type action,
        (d <- getitem msg "dreadfort" ;; getitem d "tenant") = Return index /\
        (d <- getitem msg "dreadfort" ;;
         c <- getitem d "correlation" ;; getitem c "pattern")
        = Return doc_type /\
        ready (chan w') = ready (chan w) ++ [action] /\
        keys action = ["_index"; "_type"; "_id"; "_ttl"; "_source"] /\
        field "_index" action = Some index /\
        field "_type" action = Some doc_type /\
        field "_id" action = Some (PStr (uuid4 E (uuids w))) /\
        field "_ttl" action = Some (PInt (TTL E)) /\
        field "_source" action = Some msg).
Proof.
  assert (Hq : forall index doc_type document ttl w',
    _queue_index_request E g w index doc_type document ttl = (w', Return tt) ->
    ready (chan w')
    = ready (chan w)
      ++ [make_action index doc_type (uuid4 E (uuids w))
                      (match ttl with Some t => t | None => PInt (TTL E) end)
                      document]).
  { intros index doc_type document ttl w' Hcall.
    pose proof (queue_index_request_cases E g w index doc_type document ttl)
      as Hc.
    cbv zeta in Hc. rewrite Hcall in Hc.
    destruct Hc as [_ [_ [-> _]]]. reflexivity. }
  split.
  - intros index doc_type document ttl w' Hcall.
    eexists. split; [apply Hq; exact Hcall|].
    repeat split; reflexivity.
  - intros msg w' Hcall. unfold put_message in Hcall.
    destruct (routing msg) as [[index doc_type]|e] eqn:Hroute;
      [|discriminate Hcall].
    destruct (_queue_index_request E g w index doc_type msg None)
      as [w1 [[]|e]] eqn:Hreq; [|discriminate Hcall].
    injection Hcall as <-.
    destruct (routing_reads msg index doc_type Hroute) as [Hi Ht].
    exists index, doc_type. eexists.
    split; [exact Hi|]. split; [exact Ht|].
    split; [apply (Hq index doc_type msg None); exact Hreq|].
    repeat split; reflexivity.
Qed.

Lemma queued_envelope_witness :
  exists index doc_type action,
    (d <- getitem (demo_doc "acme" "login") "dreadfort" ;; getitem d "tenant")
    = Return index /\
    (d <- getitem (demo_doc "acme" "login") "dreadfort" ;;
     c <- getitem d "correlation" ;; getitem c "pattern") = Return doc_type /\
    ready (chan (fst (put_message demo_env all_globals empty_world
                                  (demo_doc "acme" "login"))))
    = [action] /\
    field "_index" action = Some index /\
    field "_type" action = Some doc_type.
Proof.
  destruct (proj2 (queued_envelope demo_env all_globals empty_world)
                  (demo_doc "acme" "login")
                  (fst (put_message demo_env all_globals empty_world
                                    (demo_doc "acme" "login"))))
    as [index [doc_type [action [Hi [Ht [Hr [_ [Hfi [Hft _]]]]]]]]].
  - reflexivity.
  - exists index, doc_type, action. repeat split; assumption.
Defined.

(** ** Identifiers *)

Lemma put_message_outcome (E : env) (g : globals) (w : world) (msg : pyval) :
  let w' := fst (put_message E g w msg) in
  match snd (put_message E g w msg) with
  | Done =>
      uuids w' = S (uuids w) /\
      exists action,
        ready (chan w') = ready (chan w) ++ [action] /\
        field "_id" action = Some (PStr (uuid4 E (uuids w))) /\
        field "_source" action = Some msg
  | Retry =>
      ready (chan w') = ready (chan w) /\
      uuids w <= uuids w' <= S (uuids w)
  end.
Proof.
  unfold put_message.
  destruct (routing msg) as [[index doc_type]|e];
    [|cbn [fst snd add_log uuids chan]; split; [reflexivity|lia]].
  pose proof (queue_index_request_cases E g w index doc_type msg None) as Hc.
  cbv zeta in Hc.
  destruct (_queue_index_request E g w index doc_type msg None) as [w1 [[]|e]];
    cbn [fst snd add_log uuids chan].
  - destruct Hc as [_ [Hu [Hchan _]]]. split; [exact Hu|].
    eexists. rewrite Hchan. repeat split; reflexivity.
  - destruct Hc as [_ [Hu Hchan]]. rewrite Hchan, Hu. split; [reflexivity|lia].
Qed.

Lemma put_messages_ids (E : env) (g : globals) (docs : list pyval) :
  forall w : world,
    let w' := put_messages E g w docs in
    exists (new : list pyval) (ns : list nat),
      ready (chan w') = ready (chan w) ++ new /\
      map (field "_source") new = map Some (done_docs E g w docs) /\
      map (field "_id") new = map (fun n => Some (PStr (uuid4 E n))) ns /\
      NoDup ns /\
      Forall (fun n => uuids w <= n < uuids w') ns /\
      uuids w <= uuids w'.
Proof.
  induction docs as [|doc docs IH]; intros w.
  - exists [], []. cbn. rewrite app_nil_r.
    repeat split; constructor.
  - cbn [put_messages done_docs]. cbv zeta.
    pose proof (put_message_outcome E g w doc) as Hone. cbv zeta in Hone.
    destruct (put_message E g w doc) as [w1 out]. cbn [fst snd] in *.
    destruct (IH w1) as [new [ns [Hready [Hsrc [Hids [Hnd [Hrange Hle]]]]]]].
    set (w' := put_messages E g w1 docs) in *.
    assert (Hweaken : uuids w <= uuids w1 ->
                      Forall (fun n => uuids w <= n < uuids w') ns).
    { intros Hw. eapply Forall_impl; [|exact Hrange].
      cbv beta. intros n Hn. lia. }
    destruct out.
    + destruct Hone as [Hu [action [Hr [Hid Hs]]]].
      exists (action :: new), (uuids w :: ns). rewrite Hready, Hr.
      rewrite <- app_assoc. cbn [app map]. rewrite Hid, Hids, Hs, Hsrc.
      repeat split; [| |lia].
      * constructor; [|exact Hnd]. intros Hin.
        rewrite Forall_forall in Hrange. specialize (Hrange _ Hin). lia.
      * constructor; [lia|apply Hweaken; lia].
    + destruct Hone as [Hr Hu].
      exists new, ns. rewrite Hready, Hr.
      repeat split; [exact Hsrc|exact Hids|exact Hnd|apply Hweaken; lia|lia].
Qed.

Lemma io_uuids (E : env) (w : world) : uuids (fst (io E w)) = uuids w.
Proof. unfold io. destruct (fault E (clock w)); reflexivity. Qed.

Lemma get_uuids (E : env) (w : world) : uuids (fst (get E w)) = uuids w.
Proof.
  unfold get. pose proof (io_uuids E w) as Hio.
  destruct (io E w) as [w1 [[]|e]]; cbn [fst] in *; [|exact Hio].
  destruct (ready (chan w1)); exact Hio.
Qed.

Lemma get_queue_stream_uuids (E : env) (w : world) (al : list Message)
      (g : gen_state) :
  let '(w', _, _, _) := get_queue_stream E w al g in uuids w' = uuids w.
Proof.
  assert (Hturn : forall w0, uuids w0 = uuids w ->
    let '(w', _, _, _) :=
      (let (w1, r) := get E w0 in
       match r with
       | Return msg => (w1, al ++ [msg], Suspended, Yield (payload msg))
       | Raise e => (w1, al, Finished, Throw e)
       end) in uuids w' = uuids w).
  { intros w0 H0. pose proof (get_uuids E w0) as Hg.
    destruct (get E w0) as [w1 [msg|e]]; cbn [fst] in Hg; congruence. }
  unfold get_queue_stream. destruct g.
  - pose proof (io_uuids E w) as Hio.
    destruct (io E w) as [w0 [[]|e]]; cbn [fst] in Hio; [|exact Hio].
    apply Hturn. exact Hio.
  - apply Hturn. reflexivity.
  - reflexivity.
Qed.

Lemma islice_uuids (E : env) (n : nat) :
  forall (w : world) (al : list Message) (g : gen_state),
    let '(w', _, _, _) := islice E n w al g in uuids w' = uuids w.
Proof.
  induction n as [|n IH]; intros w al g; [reflexivity|].
  cbn [islice]. pose proof (get_queue_stream_uuids E w al g) as Hone.
  destruct (get_queue_stream E w al g) as [[[w1 al1] g1] [doc|e|]];
    try exact Hone.
  specialize (IH w1 al1 g1).
  destruct (islice E n w1 al1 g1) as [[[w2 al2] g2] [docs|e]]; congruence.
Qed.

Lemma flush_step_uuids (E : env) (w : world) (s : flush_state) :
  uuids (fst (flush_step E w s)) = uuids w.
Proof.
  unfold flush_step, try_body. destruct s as [|[al g ps]]; [reflexivity|].
  cbn [pending ack_list actions]. destruct ps as [|[ok detail] ps].
  - unfold streaming_bulk. cbn [ack_list actions].
    pose proof (islice_uuids E (BULK_SIZE E) w al g) as Hfill.
    destruct (islice E (BULK_SIZE E) w al g) as [[[w1 al1] g1] [docs|e]];
      [|exact Hfill].
    destruct docs as [|doc docs]; [exact Hfill|].
    pose proof (io_uuids E w1) as Hio.
    destruct (io E w1) as [w2 [[]|e]]; cbn [fst add_log uuids] in *; congruence.
  - destruct al as [|m al]; [reflexivity|]. cbn [fst].
    destruct ok; [|reflexivity].
    unfold ack. pose proof (io_uuids E w) as Hio.
    destruct (io E w) as [w1 [[]|e]]; exact Hio.
Qed.

Lemma flush_from_uuids (E : env) (n : nat) :
  forall (w : world) (s : flush_state),
    uuids (fst (flush_from E n w s)) = uuids w.
Proof.
  induction n as [|n IH]; intros w s; [reflexivity|].
  cbn [flush_from]. pose proof (flush_step_uuids E w s) as Hstep.
  destruct (flush_step E w s) as [w1 s1]. rewrite IH. exact Hstep.
Qed.

Lemma demo_uuid4_fresh (m n : nat) : demo_uuid4 m = demo_uuid4 n -> m = n.
Proof.
  unfold demo_uuid4. intros H.
  apply (f_equal list_ascii_of_string) in H.
  rewrite !list_ascii_of_string_of_list_ascii in H.
  apply (f_equal (@length ascii)) in H.
  rewrite !repeat_length in H. exact H.
Qed.

(** C6: The identifier of an action is drawn inside the enqueue
    operation, at publish time.  A call of [put_message] that ends
    normally has published one action, whose _source is the document and
    whose _id is the identifier drawn in that very call.  With [uuid4]
    never returning the same value twice, any run of calls publishes one
    action per call that ended normally, in order, with pairwise distinct
    identifiers, each drawn during the run; in particular the same
    document published twice gives two actions with different
    identifiers.  The flush loop draws no identifier. *)
Theorem action_ids_are_fresh_at_publish
        (E : env) (g : globals) (w : world) (docs : list pyval) :
  (forall m n, uuid4 E m = uuid4 E n -> m = n) ->
  let w' := put_messages E g w docs in
  (forall msg : pyval,
      snd (put_message E g w msg) = Done ->
      uuids (fst (put_message E g w msg)) = S (uuids w) /\
      exists action,
        ready (chan (fst (put_message E g w msg))) = ready (chan w) ++ [action] /\
        field "_id" action = Some (PStr (uuid4 E (uuids w))) /\
        field "_source" action = Some msg) /\
  (exists new,
      ready (chan w') = ready (chan w) ++ new /\
      map (field "_source") new = map Some (done_docs E g w docs) /\
      NoDup (map (field "_id") new) /\
      (forall action,
          In action new ->
          exists n, uuids w <= n < uuids w' /\
                    field "_id" action = Some (PStr (uuid4 E n)))) /\
  (forall msg : pyval,
      let first := put_message E g w msg in
      let second := put_message E g (fst first) msg in
      snd first = Done ->
      snd second = Done ->
      exists a1 a2,
        ready (chan (fst second)) = ready (chan w) ++ [a1; a2] /\
        field "_source" a1 = Some msg /\
        field "_source" a2 = Some msg /\
        field "_id" a1 <> field "_id" a2) /\
  (forall (n : nat) (s : flush_state),
      uuids (fst (flush_from E n w' s)) = uuids w').
Proof.
  intros Hfresh w'. split; [|split; [|split]].
  - intros msg Hdone.
    pose proof (put_message_outcome E g w msg) as Hone. cbv zeta in Hone.
    rewrite Hdone in Hone. exact Hone.
  - destruct (put_messages_ids E g docs w)
      as [new [ns [Hr [Hsrc [Hids [Hnd [Hrange _]]]]]]].
    fold w' in Hr, Hrange.
    exists new. split; [exact Hr|]. split; [exact Hsrc|]. split.
    + rewrite Hids. apply NoDup_map_NoDup_ForallPairs; [|exact Hnd].
      intros m n _ _ Heq. injection Heq as Heq. apply Hfresh. exact Heq.
    + intros action Hin. apply (in_map (field "_id")) in Hin.
      rewrite Hids in Hin. apply in_map_iff in Hin as [n [Hn Hin]].
      rewrite Forall_forall in Hrange. exists n.
      split; [apply Hrange; exact Hin|]. symmetry. exact Hn.
  - intros msg first second Hd1 Hd2.
    pose proof (put_message_outcome E g w msg) as H1. cbv zeta in H1.
    fold first in H1. rewrite Hd1 in H1.
    destruct H1 as [Hu1 [a1 [Hr1 [Hid1 Hs1]]]].
    pose proof (put_message_outcome E g (fst first) msg) as H2.
    cbv zeta in H2. fold second in H2. rewrite Hd2 in H2.
    destruct H2 as [_ [a2 [Hr2 [Hid2 Hs2]]]].
    exists a1, a2. rewrite Hr2, Hr1, <- app_assoc.
    split; [reflexivity|]. split; [exact Hs1|]. split; [exact Hs2|].
    rewrite Hid1, Hid2, Hu1. intros Heq. injection Heq as Heq.
    apply Hfresh in Heq. lia.
  - intros n s. apply flush_from_uuids.
Qed.

Lemma action_ids_are_fresh_at_publish_witness :
  exists a1 a2,
    ready (chan (fst (put_message demo_env all_globals
                        (fst (put_message demo_env all_globals empty_world
                                          (demo_doc "acme" "login")))
                        (demo_doc "acme" "login"))))
    = [a1; a2] /\
    field "_source" a1 = Some (demo_doc "acme" "login") /\
    field "_source" a2 = Some (demo_doc "acme" "login") /\
    field "_id" a1 <> field "_id" a2.
Proof.
  destruct (proj1 (proj2 (proj2
              (action_ids_are_fresh_at_publish
                 demo_env all_globals empty_world
                 [demo_doc "acme" "login"; demo_doc "acme" "login"]
                 demo_uuid4_fresh)))
              (demo_doc "acme" "login"))
    as [a1 [a2 [Hr [Hs1 [Hs2 Hne]]]]].
  - reflexivity.
  - reflexivity.
  - exists a1, a2. repeat split; assumption.
Defined.

(** ** Process pool *)

(** C8: [start] makes as many processes as the host has cores, each with
    the flush loop as its target, and when it returns [start()] has been
    called on every one of them. *)
Theorem start_spawns_one_started_worker_per_core
        (E : env) (self : ElasticSearchStreamBulker) :
  length (start E self) = cpu_count E /\
  Forall (fun p => target p = flush_to_es /\ started p = true) (start E self).
Proof.
  unfold start. split.
  - rewrite !length_map, length_seq. reflexivity.
  - rewrite Forall_forall. intros p Hp.
    apply in_map_iff in Hp as [q [<- Hq]].
    apply in_map_iff in Hq as [x [<- _]].
    split; reflexivity.
Qed.



(** ** Start-up *)





(** * Further properties of the sink *)

(** ** Publishing *)

Lemma lookup_serializable (key : string) (items : list (string * pyval)) :
  forall v,
    forallb (fun kv : string * pyval => json_serializable (snd kv)) items = true ->
    lookup key items = Some v ->
    json_serializable v = true.
Proof.
  induction items as [|[k x] items IH]; intros v Hall Hv; [discriminate Hv|].
  cbn [forallb snd] in Hall. apply andb_true_iff in Hall as [Hx Hall].
  cbn [lookup] in Hv. destruct (String.eqb k key).
  - injection Hv as <-. exact Hx.
  - apply IH; assumption.
Qed.

Lemma getitem_serializable (obj v : pyval) (key : string) :
  json_serializable obj = true ->
  getitem obj key = Return v ->
  json_serializable v = true.
Proof.
  intros Hobj Hget. destruct obj; try discriminate Hget.
  cbn [getitem] in Hget.
  destruct (lookup key items) as [x|] eqn:Hx; [|discriminate Hget].
  injection Hget as <-. cbn [json_serializable] in Hobj.
  exact (lookup_serializable key items x Hobj Hx).
Qed.

Lemma routing_serializable (msg index doc_type : pyval) :
  json_serializable msg = true ->
  routing msg = Return (index, doc_type) ->
  json_serializable index = true /\ json_serializable doc_type = true.
Proof.
  intros Hmsg. unfold routing, bind.
  destruct (getitem msg "dreadfort") as [d|e] eqn:Hd; [|discriminate].
  pose proof (getitem_serializable msg d "dreadfort" Hmsg Hd) as Hds.
  destruct (getitem d "tenant") as [i|e] eqn:Hi; [|discriminate].
  destruct (getitem d "correlation") as [c|e] eqn:Hc; [|discriminate].
  pose proof (getitem_serializable d c "correlation" Hds Hc) as Hcs.
  destruct (getitem c "pattern") as [t|e] eqn:Ht; [|discriminate].
  intros H. injection H as <- <-. split.
  - exact (getitem_serializable d i "tenant" Hds Hi).
  - exact (getitem_serializable c t "pattern" Hcs Ht).
Qed.

Lemma action_serializable (index doc_type ttl document : pyval) (id : string) :
  json_serializable (make_action index doc_type id ttl document)
  = json_serializable index && json_serializable doc_type
    && json_serializable ttl && json_serializable document.
Proof.
  cbn. destruct (json_serializable index), (json_serializable doc_type),
    (json_serializable ttl), (json_serializable document); reflexivity.
Qed.

(** X1: [put_message] either publishes exactly one action, whose _source
    is the document, and logs nothing, or it publishes nothing, logs one
    entry and asks for a retry. *)
Theorem put_message_publishes_once_or_nothing
        (E : env) (g : globals) (w : world) (msg : pyval) :
  (snd (put_message E g w msg) = Done /\
   log (fst (put_message E g w msg)) = log w /\
   exists action,
     chan (fst (put_message E g w msg)) = publish (chan w) action /\
     field "_source" action = Some msg) \/
  (snd (put_message E g w msg) = Retry /\
   chan (fst (put_message E g w msg)) = chan w /\
   exists text,
     log (fst (put_message E g w msg)) = log w ++ [LogExceptionText text]).
Proof.
  unfold put_message.
  destruct (routing msg) as [[index doc_type]|e].
  - pose proof (queue_index_request_cases E g w index doc_type msg None) as Hc.
    cbv zeta in Hc.
    destruct (_queue_index_request E g w index doc_type msg None)
      as [w' [[]|e]]; cbn [fst snd add_log chan log].
    + destruct Hc as [Hlog [_ [Hchan _]]]. left.
      split; [reflexivity|]. split; [exact Hlog|].
      eexists. split; [exact Hchan|reflexivity].
    + destruct Hc as [Hlog [_ Hchan]]. right.
      split; [reflexivity|]. split; [exact Hchan|].
      exists (message e). rewrite Hlog. reflexivity.
  - right. cbn [fst snd add_log chan log].
    split; [reflexivity|]. split; [reflexivity|].
    exists (message e). reflexivity.
Qed.

(** X2: [put_message] succeeds exactly when the document carries its
    routing metadata and is JSON-serializable, the names [connection] and
    [es_queue] are bound, and neither of its two broker calls fails. *)
Theorem put_message_succeeds_iff
        (E : env) (g : globals) (w : world) (msg : pyval) :
  snd (put_message E g w msg) = Done <->
  (exists index doc_type, routing msg = Return (index, doc_type)) /\
  json_serializable msg = true /\
  connection g = true /\ es_queue g = true /\
  fault E (clock w) = None /\ fault E (S (clock w)) = None.
Proof.
  unfold put_message.
  destruct (routing msg) as [[index doc_type]|e] eqn:Hroute.
  2:{ cbn [snd]. split; [discriminate|].
      intros [[i [t Hr]] _]. discriminate Hr. }
  destruct w as [c l t uu].
  unfold _queue_index_request, global, io, draw, tick, set_chan.
  cbn [chan log clock uuids].
  rewrite action_serializable.
  destruct (connection g);
    [|cbn [snd]; split; [discriminate|intros [_ [_ [H _]]]; discriminate H]].
  destruct (fault E t);
    [cbn [snd]; split;
       [discriminate|intros [_ [_ [_ [_ [H _]]]]]; discriminate H]|].
  destruct (es_queue g);
    [|cbn [snd]; split; [discriminate|intros [_ [_ [_ [H _]]]]; discriminate H]].
  destruct (json_serializable msg) eqn:Hmsg.
  - destruct (routing_serializable msg index doc_type Hmsg Hroute) as [-> ->].
    cbn [json_serializable andb negb chan log clock uuids].
    destruct (fault E (S t)); cbn [snd]; split.
    + discriminate.
    + intros [_ [_ [_ [_ [_ H]]]]]. discriminate H.
    + intros _. split; [exists index, doc_type; reflexivity|].
      repeat split; reflexivity.
    + reflexivity.
  - rewrite andb_false_r. cbn [negb snd]. split; [discriminate|].
    intros [_ [H _]]. discriminate H.
Qed.

(** X3: a dict without the key 'dreadfort' is refused before anything
    else happens: no identifier is drawn and no broker call is made; the
    log receives the missing key's name, which is the message of the
    KeyError, and the task is retried. *)
Theorem missing_metadata_costs_nothing
        (E : env) (g : globals) (w : world) (items : list (string * pyval)) :
  lookup "dreadfort" items = None ->
  put_message E g w (PDict items)
  = (add_log w (LogExceptionText "dreadfort"), Retry).
Proof.
  intros Hmiss. unfold put_message, routing, bind.
  cbn [getitem]. rewrite Hmiss. reflexivity.
Qed.

Lemma missing_metadata_costs_nothing_witness :
  put_message demo_env all_globals empty_world (PDict [("msg", PStr "hello")])
  = (add_log empty_world (LogExceptionText "dreadfort"), Retry).
Proof.
  apply (missing_metadata_costs_nothing
           demo_env all_globals empty_world [("msg", PStr "hello")]).
  reflexivity.
Defined.

(** ** Start-up *)

(** Closes the cases in which the start-up step [s] raises. *)
Ltac init_fails s :=
  cbn; repeat split; try discriminate; try congruence;
  try (let H := fresh in intros H; specialize (H s); congruence).

(** X4: the start-up block binds [es_queue] exactly when none of its
    statements raises, and then it binds all four names and logs nothing;
    [connection] is bound exactly when making the connection did not
    raise. *)
Theorem module_init_binds_iff_no_failure (startup : init_step -> option exn) :
  (es_queue (fst (module_init startup)) = true <->
   forall s, startup s = None) /\
  (connection (fst (module_init startup)) = true <->
   startup MakeConnection = None) /\
  ((forall s, startup s = None) ->
   module_init startup = (all_globals, [])).
Proof.
  unfold module_init, init_steps. cbn [run_init].
  destruct (startup MakeConnection) as [e1|] eqn:H1;
    [init_fails MakeConnection|].
  destruct (startup MakeExchange) as [e2|] eqn:H2;
    [init_fails MakeExchange|].
  destruct (startup BindExchange) as [e3|] eqn:H3;
    [init_fails BindExchange|].
  destruct (startup DeclareExchange) as [e4|] eqn:H4;
    [init_fails DeclareExchange|].
  destruct (startup MakeQueue) as [e5|] eqn:H5;
    [init_fails MakeQueue|].
  cbn. repeat split; try reflexivity.
  intros _ s. destruct s; assumption.
Qed.

Lemma module_init_binds_iff_no_failure_witness :
  module_init (fun _ => None) = (all_globals, []).
Proof.
  apply (proj2 (proj2 (module_init_binds_iff_no_failure (fun _ => None)))).
  intros s. reflexivity.
Defined.

(** ** What a worker does when a chunk cannot be completed *)

Lemma islice_runs_dry (E : env) (bodies : list pyval) :
  forall (n : nat) (u a : list Message) (nt : nat) (l : list log_entry)
         (c uu : nat) (al : list Message),
    length bodies < n ->
    quiet E c (length bodies + 1) ->
    islice E n (World (Channel bodies u a nt) l c uu) al Suspended
    = (World (Channel [] (u ++ tagged nt bodies) a (nt + length bodies))
             l (c + length bodies + 1) uu,
       al ++ tagged nt bodies, Finished, Raise (Exn Empty "timed out")).
Proof.
  induction bodies as [|b bs IH]; intros n u a nt l c uu al Hn Hq;
    (destruct n as [|n]; [cbn [length] in Hn; lia|]).
  - cbn [islice get_queue_stream length tagged].
    rewrite get_times_out by (apply Hq; cbn [length]; lia).
    rewrite !app_nil_r, Nat.add_0_r.
    replace (c + 0 + 1) with (S c) by lia. reflexivity.
  - cbn [length] in *. cbn [islice get_queue_stream].
    rewrite get_delivers by (apply Hq; lia).
    rewrite IH; [|lia|intros t Ht; apply Hq; lia].
    cbn [tagged]. rewrite <- !app_assoc. cbn [app].
    replace (S nt + length bs) with (nt + S (length bs)) by lia.
    replace (S c + length bs + 1) with (c + S (length bs) + 1) by lia.
    reflexivity.
Qed.

(** X5: with fewer than [BULK_SIZE] documents waiting, a worker with
    nothing pending pulls them all, runs into the timeout and gives the
    turn up: the pulled messages stay on the channel un-acknowledged,
    none is submitted to the backend or acknowledged, the exception is
    logged and the loop is back at its top. *)
Theorem short_chunk_is_pulled_and_abandoned
        (E : env) (w : world) (g : gen_state) (al : list Message) :
  let bodies := ready (chan w) in
  g <> Finished ->
  length bodies < BULK_SIZE E ->
  quiet E (clock w) (opening g + length bodies + 1) ->
  flush_step E w (Streaming (Worker al g []))
  = (World (Channel [] (unacked (chan w) ++ tagged (next_tag (chan w)) bodies)
                    (acked (chan w)) (next_tag (chan w) + length bodies))
           (log w ++ [LogException (Exn Empty "timed out")])
           (clock w + opening g + length bodies + 1) (uuids w),
     Connecting).
Proof.
  intros bodies Hg Hshort Hq. subst bodies.
  destruct w as [[r u a nt] l c uu].
  cbn [chan ready unacked acked next_tag log clock uuids] in *.
  unfold flush_step, try_body, streaming_bulk. cbn [pending ack_list actions].
  destruct g; [| |congruence]; cbn [opening] in *.
  - destruct (BULK_SIZE E) as [|n]; [lia|].
    cbn [islice get_queue_stream].
    rewrite io_quiet by (cbn [clock]; apply Hq; lia).
    unfold tick. cbn [chan log clock uuids].
    destruct r as [|b bs].
    + rewrite get_times_out by (apply Hq; cbn [length]; lia).
      cbn [length tagged]. unfold add_log. cbn [chan log clock uuids].
      rewrite app_nil_r, Nat.add_0_r.
      replace (c + 1 + 0 + 1) with (S (S c)) by lia. reflexivity.
    + cbn [length] in *. rewrite get_delivers by (apply Hq; lia).
      rewrite islice_runs_dry; [|lia|intros t Ht; apply Hq; lia].
      unfold add_log. cbn [chan log clock uuids tagged].
      rewrite <- !app_assoc. cbn [app].
      replace (S nt + length bs) with (nt + S (length bs)) by lia.
      replace (S (S c) + length bs + 1) with (c + 1 + S (length bs) + 1) by lia.
      reflexivity.
  - rewrite islice_runs_dry; [|exact Hshort|intros t Ht; apply Hq; lia].
    unfold add_log. cbn [chan log clock uuids].
    rewrite Nat.add_0_r. reflexivity.
Qed.

Lemma short_chunk_is_pulled_and_abandoned_witness :
  flush_step outage_env
             (put_messages demo_env all_globals empty_world
                           [demo_doc "acme" "login"])
             (Streaming (Worker [] Suspended []))
  = (World (Channel []
                    (tagged 0 (ready (chan (put_messages
                                              demo_env all_globals empty_world
                                              [demo_doc "acme" "login"]))))
                    [] 1)
           [LogException (Exn Empty "timed out")] 4 1,
     Connecting).
Proof.
  refine (short_chunk_is_pulled_and_abandoned
            outage_env _ Suspended [] _ _ _).
  - discriminate.
  - simpl. lia.
  - intros t Ht. simpl in Ht.
    assert (Hlt : t < 10) by lia.
    unfold outage_env, fault.
    destruct (Nat.leb_spec 10 t) as [Hge|_]; [lia|reflexivity].
Defined.

(** X6: when the bulk request itself fails, the whole chunk stays
    un-acknowledged: the messages pulled for it are on the channel as
    delivered, none is acknowledged, the exception is logged and the loop
    is back at its top, its list of handles dropped. *)
Theorem failed_submission_leaves_chunk_unacknowledged
        (E : env) (w : world) (g : gen_state) (bodies rest : list pyval)
        (e : exn) :
  g <> Finished ->
  ready (chan w) = bodies ++ rest ->
  length bodies = BULK_SIZE E ->
  0 < BULK_SIZE E ->
  quiet E (clock w) (opening g + BULK_SIZE E) ->
  fault E (submit_time E w g) = Some e ->
  flush_step E w (Streaming (Worker [] g []))
  = (World (Channel rest
                    (unacked (chan w) ++ tagged (next_tag (chan w)) bodies)
                    (acked (chan w)) (next_tag (chan w) + BULK_SIZE E))
           (log w ++ [LogException e])
           (submit_time E w g + 1) (uuids w),
     Connecting).
Proof.
  intros Hg Hready Hlen Hpos Hq Hfault. unfold submit_time in *.
  destruct w as [[r u a nt] l c uu].
  cbn [chan ready unacked acked next_tag log clock uuids] in *. subst r.
  destruct bodies as [|b bs]; [cbn [length] in Hlen; lia|].
  unfold flush_step, try_body, streaming_bulk. cbn [pending ack_list actions].
  rewrite <- Hlen in *. cbn [length] in *.
  rewrite islice_live; [|exact Hg|exact Hq].
  unfold io. cbn [clock]. rewrite Hfault.
  unfold tick, add_log. cbn [chan log clock uuids app].
  replace (S (c + opening g + S (length bs)))
    with (c + opening g + S (length bs) + 1) by lia.
  reflexivity.
Qed.

Lemma failed_submission_leaves_chunk_unacknowledged_witness :
  snd (flush_step outage_env demo_world (Streaming (Worker [] Fresh [])))
  = Connecting /\
  acked (chan (fst (flush_step outage_env demo_world
                               (Streaming (Worker [] Fresh []))))) = [] /\
  unacked (chan (fst (flush_step outage_env demo_world
                                 (Streaming (Worker [] Fresh [])))))
  = tagged 0 (ready (chan demo_world)).
Proof.
  rewrite (failed_submission_leaves_chunk_unacknowledged
             outage_env demo_world Fresh (ready (chan demo_world)) []
             (Exn ConnectionError "backend unreachable")).
  - repeat split; reflexivity.
  - discriminate.
  - reflexivity.
  - reflexivity.
  - simpl. lia.
  - intros t Ht. simpl in Ht. unfold outage_env, fault.
    destruct (Nat.leb_spec 10 t) as [Hge|_]; [lia|reflexivity].
  - reflexivity.
Defined.

(** ** No message is lost *)

Lemma get_cases (E : env) (w : world) :
  let '(w', r) := get E w in
  match r with
  | Raise _ => chan w' = chan w
  | Return msg =>
      exists rest,
        ready (chan w) = payload msg :: rest /\
        delivery_tag msg = next_tag (chan w) /\
        chan w' = Channel rest (unacked (chan w) ++ [msg]) (acked (chan w))
                          (S (next_tag (chan w)))
  end.
Proof.
  unfold get. pose proof (io_chan E w) as Hio.
  destruct (io E w) as [w1 [[]|e]]; cbn [fst] in Hio; [|exact Hio].
  rewrite Hio. destruct (ready (chan w)) as [|body rest] eqn:Hr; [exact Hio|].
  exists rest. cbn [payload delivery_tag set_chan chan].
  repeat split; reflexivity.
Qed.

Lemma ack_cases (E : env) (w : world) (msg : Message) :
  let '(w', r) := ack E w msg in
  match r with
  | Raise _ => chan w' = chan w
  | Return _ =>
      chan w'
      = Channel (ready (chan w))
                (filter (fun m => negb (Nat.eqb (delivery_tag m)
                                                (delivery_tag msg)))
                        (unacked (chan w)))
                (acked (chan w) ++ [msg]) (next_tag (chan w))
  end.
Proof.
  unfold ack. pose proof (io_chan E w) as Hio.
  destruct (io E w) as [w1 [[]|e]]; cbn [fst] in Hio; [|exact Hio].
  cbn [set_chan chan]. rewrite Hio. reflexivity.
Qed.

Lemma holds_same_chan (w w' : world) (al : list Message) :
  chan w' = chan w -> holds w al -> holds w' al.
Proof. unfold holds. intros ->. exact (fun H => H). Qed.

Lemma get_queue_stream_holds (E : env) (w : world) (al : list Message)
      (g : gen_state) :
  holds w al ->
  let '(w', al', _, _) := get_queue_stream E w al g in
  holds w' al' /\ Permutation (held (chan w')) (held (chan w)).
Proof.
  intros Hal.
  assert (Hturn : forall w0, chan w0 = chan w ->
    let '(w', al', _, _) :=
      (let (w1, r) := get E w0 in
       match r with
       | Return msg => (w1, al ++ [msg], Suspended, Yield (payload msg))
       | Raise e => (w1, al, Finished, Throw e)
       end) in
    holds w' al' /\ Permutation (held (chan w')) (held (chan w))).
  { intros w0 H0. pose proof (get_cases E w0) as Hg.
    destruct (get E w0) as [w1 [msg|e]].
    - destruct Hg as [rest [Hr [Htag Hchan]]]. rewrite H0 in *.
      destruct Hal as [[Hnd Hlt] [Hal Hin]].
      rewrite Forall_forall in Hlt. split.
      + unfold holds, chan_wf. rewrite Hchan. cbn [unacked next_tag].
        repeat split.
        * rewrite map_app. cbn [map].
          apply NoDup_app; [exact Hnd|repeat constructor; intros []|].
          intros t Ht [<-|[]]. apply in_map_iff in Ht as [m [Hm Ht]].
          specialize (Hlt m Ht). lia.
        * apply Forall_app. split; [|constructor; [lia|constructor]].
          apply Forall_forall. intros m Hm. specialize (Hlt m Hm). lia.
        * rewrite map_app. cbn [map].
          apply NoDup_app; [exact Hal|repeat constructor; intros []|].
          intros t Ht [<-|[]]. apply in_map_iff in Ht as [m [Hm Ht]].
          specialize (Hlt m (Hin m Ht)). lia.
        * intros m Hm. apply in_app_iff in Hm as [Hm|Hm];
            apply in_app_iff; [left; apply Hin; exact Hm|right; exact Hm].
      + unfold held. rewrite Hchan, Hr. cbn [ready unacked acked].
        rewrite map_app. cbn [map]. rewrite <- !app_assoc. cbn [app].
        symmetry. rewrite !app_assoc. apply Permutation_cons_app.
        reflexivity.
    - split; [eapply holds_same_chan; [|exact Hal]; congruence|].
      rewrite Hg, H0. reflexivity. }
  unfold get_queue_stream. destruct g.
  - pose proof (io_chan E w) as Hio.
    destruct (io E w) as [w0 [[]|e]]; cbn [fst] in Hio.
    + apply Hturn. exact Hio.
    + split; [eapply holds_same_chan; [exact Hio|exact Hal]|].
      rewrite Hio. reflexivity.
  - apply Hturn. reflexivity.
  - split; [exact Hal|reflexivity].
Qed.

Lemma islice_holds (E : env) (n : nat) :
  forall (w : world) (al : list Message) (g : gen_state),
    holds w al ->
    let '(w', al', _, _) := islice E n w al g in
    holds w' al' /\ Permutation (held (chan w')) (held (chan w)).
Proof.
  induction n as [|n IH]; intros w al g Hal; [split; [exact Hal|reflexivity]|].
  cbn [islice]. pose proof (get_queue_stream_holds E w al g Hal) as Hone.
  destruct (get_queue_stream E w al g) as [[[w1 al1] g1] [doc|e|]];
    try exact Hone.
  destruct Hone as [Hal1 Hp1]. specialize (IH w1 al1 g1 Hal1).
  destruct (islice E n w1 al1 g1) as [[[w2 al2] g2] [docs|e]];
    destruct IH as [Hal2 Hp2];
    (split; [exact Hal2|etransitivity; [exact Hp2|exact Hp1]]).
Qed.

Lemma ack_conserves (c : channel) (msg : Message) :
  NoDup (map delivery_tag (unacked c)) ->
  In msg (unacked c) ->
  Permutation
    (held (Channel (ready c)
                   (filter (fun m => negb (Nat.eqb (delivery_tag m)
                                                   (delivery_tag msg)))
                           (unacked c))
                   (acked c ++ [msg]) (next_tag c)))
    (held c).
Proof.
  intros Hnd Hin. apply in_split in Hin as [pre [post Hsplit]].
  unfold held. cbn [ready unacked acked]. rewrite Hsplit in *.
  rewrite ack_removes by exact Hnd.
  apply Permutation_app_head.
  rewrite !map_app. cbn [map].
  rewrite app_assoc with (n := [payload msg]).
  etransitivity; [symmetry; apply Permutation_cons_append|].
  rewrite <- !app_assoc. cbn [app]. apply Permutation_middle.
Qed.

Lemma flush_step_conserves (E : env) (w : world) (s : flush_state) :
  worker_holds w s ->
  worker_holds (fst (flush_step E w s)) (snd (flush_step E w s)) /\
  Permutation (held (chan (fst (flush_step E w s)))) (held (chan w)).
Proof.
  intros Hs. unfold flush_step, try_body.
  destruct s as [|[al g ps]]; cbn [worker_holds ack_list] in Hs.
  - cbn [fst snd worker_holds ack_list add_log chan].
    split; [|reflexivity]. repeat split; try apply Hs; [constructor|].
    intros m [].
  - cbn [pending ack_list actions]. destruct ps as [|[ok detail] ps].
    + unfold streaming_bulk. cbn [ack_list actions].
      pose proof (islice_holds E (BULK_SIZE E) w al g Hs) as Hfill.
      destruct (islice E (BULK_SIZE E) w al g) as [[[w1 al1] g1] [docs|e]];
        destruct Hfill as [Hal1 Hp1];
        [|split; [apply Hal1|exact Hp1]].
      destruct docs as [|doc docs]; [split; [apply Hal1|exact Hp1]|].
      pose proof (io_chan E w1) as Hio.
      destruct (io E w1) as [w2 [[]|e]];
        cbn [fst snd worker_holds ack_list add_log chan] in *;
        rewrite Hio.
      * split; [eapply holds_same_chan; [exact Hio|exact Hal1]|exact Hp1].
      * split; [apply Hal1|exact Hp1].
    + destruct al as [|m al]; [split; [apply Hs|reflexivity]|].
      cbn [fst]. destruct Hs as [Hwf [Hnd Hin]].
      cbn [map] in Hnd. apply NoDup_cons_iff in Hnd as [Hm Hnd].
      assert (Hin' : incl al (unacked (chan w)))
        by (intros x Hx; apply Hin; right; exact Hx).
      destruct ok.
      * pose proof (ack_cases E w m) as Hack.
        pose proof (ack_wf E w m Hwf) as Hwf'.
        destruct (ack E w m) as [w1 [[]|e]];
          cbn [fst snd worker_holds ack_list add_log chan] in *.
        -- split.
           ++ repeat split; [apply Hwf'|apply Hwf'|exact Hnd|].
              intros x Hx. rewrite Hack. cbn [unacked].
              apply filter_In. split; [apply Hin'; exact Hx|].
              destruct (Nat.eqb_spec (delivery_tag x) (delivery_tag m))
                as [Heq|_]; [|reflexivity].
              exfalso. apply Hm. rewrite <- Heq. apply in_map. exact Hx.
           ++ rewrite Hack. apply ack_conserves; [apply Hwf|].
              apply Hin. left. reflexivity.
        -- rewrite Hack. split; [exact Hwf|reflexivity].
      * cbn [fst snd worker_holds ack_list].
        split; [|reflexivity]. repeat split; try apply Hwf; assumption.
Qed.

Lemma flush_from_conserves (E : env) (n : nat) :
  forall (w : world) (s : flush_state),
    worker_holds w s ->
    Permutation (held (chan (fst (flush_from E n w s)))) (held (chan w)).
Proof.
  induction n as [|n IH]; intros w s Hs; [reflexivity|].
  cbn [flush_from].
  destruct (flush_step_conserves E w s Hs) as [Hs' Hp].
  destruct (flush_step E w s) as [w1 s1]. cbn [fst snd] in *.
  etransitivity; [apply IH; exact Hs'|exact Hp].
Qed.

(** X7: the flush loop loses no message and makes none up.  However long
    it runs and whatever fails on the way, the documents on the channel
    (waiting, delivered or acknowledged) are the same documents as when
    it started, each as many times. *)
Theorem flush_loop_conserves_messages (E : env) (n : nat) (w : world) :
  chan_wf (chan w) ->
  Permutation (held (chan (fst (flush_to_es E n w)))) (held (chan w)).
Proof.
  intros Hwf. apply flush_from_conserves. exact Hwf.
Qed.

Lemma flush_loop_conserves_messages_witness :
  Permutation (held (chan (fst (flush_to_es outage_env 9 demo_world))))
              (held (chan demo_world)).
Proof.
  apply (flush_loop_conserves_messages outage_env 9 demo_world).
  split; constructor.
Defined.

(** ** From publisher to reader *)

(** X8: the reader is first in, first out.  Resumed as many times as
    there are documents waiting, it yields them oldest first and appends
    their handles in the same order, with consecutive delivery tags. *)
Theorem reader_yields_oldest_first
        (E : env) (bodies : list pyval) (w : world) (al : list Message)
        (rest : list pyval) :
  ready (chan w) = bodies ++ rest ->
  quiet E (clock w) (length bodies) ->
  stream_prefix E (length bodies) w al Suspended
  = (World (Channel rest
                    (unacked (chan w) ++ tagged (next_tag (chan w)) bodies)
                    (acked (chan w)) (next_tag (chan w) + length bodies))
           (log w) (clock w + length bodies) (uuids w),
     al ++ tagged (next_tag (chan w)) bodies, Suspended, bodies).
Proof.
  destruct w as [[r u a nt] l c uu].
  cbn [chan ready unacked acked next_tag log clock uuids].
  intros ->. revert u nt c al.
  induction bodies as [|b bs IH]; intros u nt c al Hq.
  - cbn. rewrite !app_nil_r, !Nat.add_0_r. reflexivity.
  - cbn [length stream_prefix get_queue_stream app].
    rewrite get_delivers by (eapply quiet_here; exact Hq).
    rewrite IH by (apply quiet_next; exact Hq).
    cbn [tagged]. rewrite <- !app_assoc. cbn [app].
    replace (S nt + length bs) with (nt + S (length bs)) by lia.
    replace (S c + length bs) with (c + S (length bs)) by lia.
    reflexivity.
Qed.

Lemma reader_yields_oldest_first_witness :
  snd (stream_prefix demo_env (length (ready (chan demo_world)))
                     demo_world [] Suspended)
  = ready (chan demo_world).
Proof.
  rewrite (reader_yields_oldest_first
             demo_env (ready (chan demo_world)) demo_world [] []).
  - reflexivity.
  - reflexivity.
  - intros t _. reflexivity.
Defined.

Lemma put_message_done (E : env) (g : globals) (w : world) (msg : pyval) :
  snd (put_message E g w msg) = Done ->
  exists index doc_type,
    routing msg = Return (index, doc_type) /\
    chan (fst (put_message E g w msg))
    = publish (chan w)
              (make_action index doc_type (uuid4 E (uuids w))
                           (PInt (TTL E)) msg).
Proof.
  unfold put_message.
  destruct (routing msg) as [[index doc_type]|e]; [|discriminate].
  pose proof (queue_index_request_cases E g w index doc_type msg None) as Hc.
  cbv zeta in Hc.
  destruct (_queue_index_request E g w index doc_type msg None)
    as [w' [[]|e]]; [|discriminate].
  intros _. exists index, doc_type. split; [reflexivity|].
  destruct Hc as [_ [_ [Hchan _]]]. exact Hchan.
Qed.

(** X9: publish and pull compose into a round trip.  After a successful
    [put_message] on a channel with nothing waiting, the reader's next
    pull yields the action just published: its _source is the document,
    its _id the identifier drawn by that call, and the handle appended to
    the list carries it as payload. *)
Theorem published_document_is_pulled_back
        (E : env) (g : globals) (w : world) (msg : pyval) (al : list Message) :
  let w' := fst (put_message E g w msg) in
  let pulled := get_queue_stream E w' al Suspended in
  ready (chan w) = [] ->
  snd (put_message E g w msg) = Done ->
  fault E (clock w') = None ->
  exists doc handle,
    snd pulled = Yield doc /\
    snd (fst (fst pulled)) = al ++ [handle] /\
    payload handle = doc /\
    field "_source" doc = Some msg /\
    field "_id" doc = Some (PStr (uuid4 E (uuids w))) /\
    ready (chan (fst (fst (fst pulled)))) = [].
Proof.
  intros w' pulled Hempty Hdone Hquiet.
  destruct (put_message_done E g w msg Hdone) as [index [doc_type [_ Hchan]]].
  fold w' in Hchan. subst pulled.
  destruct w' as [[r u a nt] l c uu].
  cbn [chan clock] in *. unfold publish in Hchan. rewrite Hempty in Hchan.
  cbn [app] in Hchan. injection Hchan as -> _ _ _.
  unfold get_queue_stream. rewrite get_delivers by exact Hquiet.
  eexists. eexists. cbn [fst snd payload].
  repeat split; reflexivity.
Qed.

Lemma published_document_is_pulled_back_witness :
  exists doc,
    snd (get_queue_stream demo_env
           (fst (put_message demo_env all_globals empty_world
                             (demo_doc "acme" "login")))
           [] Suspended) = Yield doc /\
    field "_source" doc = Some (demo_doc "acme" "login").
Proof.
  destruct (published_document_is_pulled_back
              demo_env all_globals empty_world (demo_doc "acme" "login") [])
    as [doc [handle [Hy [_ [_ [Hs _]]]]]].
  - reflexivity.
  - reflexivity.
  - reflexivity.
  - exists doc. split; [exact Hy|exact Hs].
Defined.

(** ** A chunk size of zero *)

Lemma zero_bulk_size_round (E : env) (w : world) :
  BULK_SIZE E = 0 ->
  flush_to_es E 2 w = (add_log w (LogError "Post flush"), Connecting).
Proof.
  intros Hzero. unfold flush_to_es. cbn [flush_from].
  unfold flush_step at 1. cbn [try_body].
  unfold flush_step, try_body, streaming_bulk. cbn [pending ack_list actions].
  rewrite Hzero. reflexivity.
Qed.

(** X10: with [BULK_SIZE] set to zero the flush loop never pulls: the bulk
    generator ends at once, so every turn of the loop only logs
    "Post flush"; the channel, the clock and the identifiers stay as they
    were. *)
Theorem zero_bulk_size_never_pulls (E : env) (n : nat) :
  forall w : world,
    BULK_SIZE E = 0 ->
    flush_to_es E (2 * n) w
    = (World (chan w) (log w ++ repeat (LogError "Post flush") n)
             (clock w) (uuids w),
       Connecting).
Proof.
  induction n as [|n IH]; intros w Hzero.
  - cbn. rewrite app_nil_r. destruct w; reflexivity.
  - replace (2 * S n) with (2 + 2 * n) by lia.
    unfold flush_to_es. rewrite flush_from_add.
    fold (flush_to_es E 2 w). rewrite zero_bulk_size_round by exact Hzero.
    cbn [fst snd]. fold (flush_to_es E (2 * n) (add_log w (LogError "Post flush"))).
    rewrite IH by exact Hzero.
    unfold add_log. cbn [chan log clock uuids].
    rewrite <- app_assoc. reflexivity.
Qed.

Lemma zero_bulk_size_never_pulls_witness :
  chan (fst (flush_to_es
               (Env 3600 0 4 demo_uuid4 (fun _ => None) (es_bulk demo_env))
               (2 * 5) demo_world))
  = chan demo_world.
Proof.
  rewrite (zero_bulk_size_never_pulls
             (Env 3600 0 4 demo_uuid4 (fun _ => None) (es_bulk demo_env))
             5 demo_world).
  - reflexivity.
  - reflexivity.
Defined.

(** * Properties of the tenant resource formatters *)

Lemma for_each_Forall2 (f : pyobj -> result pyobj) (xs : list pyobj) :
  forall ys,
    for_each f xs = Return ys <-> Forall2 (fun x y => f x = Return y) xs ys.
Proof.
  induction xs as [|x xs IH]; intros ys; cbn [for_each].
  - split.
    + intros H. injection H as <-. constructor.
    + intros H. inversion H. reflexivity.
  - unfold bind. destruct (f x) as [y|e] eqn:Hx.
    + destruct (for_each f xs) as [ys'|e] eqn:Hxs.
      * split.
        -- intros H. injection H as <-. constructor; [exact Hx|].
           apply IH. reflexivity.
        -- intros H. inversion H as [|x0 y0 xs0 ys0 Hy Hrest]; subst.
           apply IH in Hrest. congruence.
      * split; [discriminate|].
        intros H. inversion H as [|x0 y0 xs0 ys0 Hy Hrest]; subst.
        apply IH in Hrest. discriminate Hrest.
    + split; [discriminate|].
      intros H. inversion H as [|x0 y0 xs0 ys0 Hy Hrest]; subst.
      congruence.
Qed.

Lemma for_each_first_failure (f : pyobj -> result pyobj) (pre : list pyobj) :
  forall (x : pyobj) (post : list pyobj) (e : exn),
    Forall (fun p => exists y, f p = Return y) pre ->
    f x = Raise e ->
    for_each f (pre ++ x :: post) = Raise e.
Proof.
  induction pre as [|p pre IH]; intros x post e Hpre Hx; cbn [app for_each].
  - rewrite Hx. reflexivity.
  - apply Forall_cons_iff in Hpre as [[y Hy] Hpre].
    rewrite Hy. cbn [bind]. rewrite (IH x post e Hpre Hx). reflexivity.
Qed.

Lemma for_each_fixed (f : pyobj -> result pyobj) (xs : list pyobj) :
  (forall x y, f x = Return y -> f y = Return y) ->
  forall ys, for_each f xs = Return ys -> for_each f ys = Return ys.
Proof.
  intros Hfix ys Hys. apply for_each_Forall2 in Hys. apply for_each_Forall2.
  induction Hys as [|x y xs ys Hxy _ IH]; constructor; [|exact IH].
  exact (Hfix x y Hxy).
Qed.

(** X11: the list formatters work element by element.  On a list,
    [format_event_producers], [format_host_profiles] and [format_hosts]
    succeed exactly when every element formats, and return the formatted
    elements in the same order, as many as were given. *)
Theorem list_formatters_are_elementwise (xs ys : list pyobj) :
  (format_event_producers (OList xs) = Return (OList ys) <->
   Forall2 (fun x y => format_event_producer x = Return y) xs ys) /\
  (format_host_profiles (OList xs) = Return (OList ys) <->
   Forall2 (fun x y => format_host_profile x = Return y) xs ys) /\
  (format_hosts (OList xs) = Return (OList ys) <->
   Forall2 (fun x y => format_host x = Return y) xs ys) /\
  (format_event_producers (OList xs) = Return (OList ys) \/
   format_host_profiles (OList xs) = Return (OList ys) \/
   format_hosts (OList xs) = Return (OList ys) ->
   length ys = length xs).
Proof.
  assert (Hgen : forall f,
    (items <- iterate (OList xs) ;; out <- for_each f items ;; Return (OList out))
    = Return (OList ys)
    <-> Forall2 (fun x y => f x = Return y) xs ys).
  { intros f. cbn [iterate bind]. rewrite <- for_each_Forall2.
    destruct (for_each f xs) as [out|e]; cbn [bind]; split; intros H;
      try discriminate H; congruence. }
  split; [apply Hgen|]. split; [apply Hgen|]. split; [apply Hgen|].
  intros [H|[H|H]]; apply Hgen in H; symmetry;
    exact (Forall2_length H).
Qed.

Lemma list_formatters_are_elementwise_witness :
  format_event_producers
    (OList [OInstance "EventProducer"
              [("id", OInt 9); ("name", OStr "sshd"); ("pattern", OStr "syslog")];
            ODict [("name", OStr "cron"); ("pattern", OStr "syslog")]])
  = Return (OList [ODict [("name", OStr "sshd"); ("pattern", OStr "syslog")];
                   ODict [("name", OStr "cron"); ("pattern", OStr "syslog")]]).
Proof.
  apply (proj2 (proj1 (list_formatters_are_elementwise _ _))).
  repeat constructor.
Defined.

(** X12: a list formatter fails with the exception of the first element
    that cannot be formatted, whatever comes after it. *)
Theorem list_formatters_fail_at_first_bad_element
        (pre post : list pyobj) (x : pyobj) (e : exn) :
  (Forall (fun p => exists y, format_event_producer p = Return y) pre ->
   format_event_producer x = Raise e ->
   format_event_producers (OList (pre ++ x :: post)) = Raise e) /\
  (Forall (fun p => exists y, format_host_profile p = Return y) pre ->
   format_host_profile x = Raise e ->
   format_host_profiles (OList (pre ++ x :: post)) = Raise e) /\
  (Forall (fun p => exists y, format_host p = Return y) pre ->
   format_host x = Raise e ->
   format_hosts (OList (pre ++ x :: post)) = Raise e).
Proof.
  unfold format_event_producers, format_host_profiles, format_hosts.
  cbn [iterate bind].
  repeat split; intros Hpre Hx;
    rewrite (for_each_first_failure _ pre x post e Hpre Hx); reflexivity.
Qed.

Lemma list_formatters_fail_at_first_bad_element_witness :
  format_event_producers
    (OList ([ODict [("name", OStr "sshd"); ("pattern", OStr "syslog")]]
            ++ ONone :: [OInt 7]))
  = Raise (Exn (OtherError "AttributeError")
               "'NoneType' object has no attribute '__dict__'").
Proof.
  refine (proj1 (list_formatters_fail_at_first_bad_element
                   [ODict [("name", OStr "sshd"); ("pattern", OStr "syslog")]]
                   [OInt 7] ONone _) _ _).
  - constructor; [|constructor]. eexists. reflexivity.
  - reflexivity.
Defined.

Lemma format_tenant_fixed (x y : pyobj) :
  format_tenant x = Return y ->
  (exists id tenant_id, y = ODict [("id", id); ("tenant_id", tenant_id)]) /\
  format_tenant y = Return y.
Proof.
  unfold format_tenant at 1. unfold bind.
  destruct (as_dict x) as [d|e]; [|discriminate].
  destruct (subscript d "id") as [id|e]; [|discriminate].
  destruct (subscript d "tenant_id") as [tenant_id|e]; [|discriminate].
  intros H. injection H as <-.
  split; [exists id, tenant_id; reflexivity|reflexivity].
Qed.

Lemma format_event_producer_fixed (x y : pyobj) :
  format_event_producer x = Return y ->
  (exists name pattern, y = ODict [("name", name); ("pattern", pattern)]) /\
  format_event_producer y = Return y.
Proof.
  unfold format_event_producer at 1. unfold bind.
  destruct (as_dict x) as [d|e]; [|discriminate].
  destruct (subscript d "name") as [name|e]; [|discriminate].
  destruct (subscript d "pattern") as [pattern|e]; [|discriminate].
  intros H. injection H as <-.
  split; [exists name, pattern; reflexivity|reflexivity].
Qed.

Lemma format_host_profile_fixed (x y : pyobj) :
  format_host_profile x = Return y ->
  (exists id name producers,
      y = ODict [("id", id); ("name", name);
                 ("event_producers", OList producers)]) /\
  format_host_profile y = Return y.
Proof.
  unfold format_host_profile at 1. unfold bind.
  destruct (as_dict x) as [d|e]; [|discriminate].
  destruct (subscript d "event_producers") as [given|e]; [|discriminate].
  destruct (iterate given) as [items|e]; [|discriminate].
  destruct (for_each format_event_producer items) as [producers|e] eqn:Hp;
    [|discriminate].
  destruct (subscript d "id") as [id|e]; [|discriminate].
  destruct (subscript d "name") as [name|e]; [|discriminate].
  intros H. injection H as <-.
  split; [exists id, name, producers; reflexivity|].
  assert (Hfix : for_each format_event_producer producers = Return producers).
  { apply (for_each_fixed format_event_producer items); [|exact Hp].
    intros a b Hab. apply (format_event_producer_fixed a b Hab). }
  unfold format_host_profile, bind. cbn [as_dict].
  change (subscript [("id", id); ("name", name);
                     ("event_producers", OList producers)] "event_producers")
    with (Return (OList producers)).
  cbn [iterate]. rewrite Hfix. reflexivity.
Qed.

(** X13: what the formatters return is already formatted.  The dict made
    by [format_tenant], [format_event_producer] or [format_host_profile]
    has the keys the formatter reads and nothing else, and formatting it
    again returns it unchanged; so do the lists made by
    [format_event_producers] and [format_host_profiles]. *)
Theorem formatting_is_idempotent (x y : pyobj) :
  (format_tenant x = Return y ->
   (exists id tenant_id, y = ODict [("id", id); ("tenant_id", tenant_id)]) /\
   format_tenant y = Return y) /\
  (format_event_producer x = Return y ->
   (exists name pattern, y = ODict [("name", name); ("pattern", pattern)]) /\
   format_event_producer y = Return y) /\
  (format_host_profile x = Return y ->
   (exists id name producers,
       y = ODict [("id", id); ("name", name);
                  ("event_producers", OList producers)]) /\
   format_host_profile y = Return y) /\
  (format_event_producers x = Return y -> format_event_producers y = Return y) /\
  (format_host_profiles x = Return y -> format_host_profiles y = Return y).
Proof.
  split; [apply format_tenant_fixed|].
  split; [apply format_event_producer_fixed|].
  split; [apply format_host_profile_fixed|].
  split.
  - unfold format_event_producers at 1. unfold bind.
    destruct (iterate x) as [items|e]; [|discriminate].
    destruct (for_each format_event_producer items) as [out|e] eqn:Hout;
      [|discriminate].
    intros H. injection H as <-.
    unfold format_event_producers. cbn [iterate bind].
    rewrite (for_each_fixed format_event_producer items); [reflexivity| |exact Hout].
    intros a b Hab. apply (format_event_producer_fixed a b Hab).
  - unfold format_host_profiles at 1. unfold bind.
    destruct (iterate x) as [items|e]; [|discriminate].
    destruct (for_each format_host_profile items) as [out|e] eqn:Hout;
      [|discriminate].
    intros H. injection H as <-.
    unfold format_host_profiles. cbn [iterate bind].
    rewrite (for_each_fixed format_host_profile items); [reflexivity| |exact Hout].
    intros a b Hab. apply (format_host_profile_fixed a b Hab).
Qed.

Lemma formatting_is_idempotent_witness :
  format_host_profile
    (ODict [("id", OInt 4); ("name", OStr "web");
            ("event_producers",
             OList [ODict [("name", OStr "sshd"); ("pattern", OStr "syslog")]])])
  = Return
      (ODict [("id", OInt 4); ("name", OStr "web");
              ("event_producers",
               OList [ODict [("name", OStr "sshd"); ("pattern", OStr "syslog")]])]).
Proof.
  refine (proj2 (proj1 (proj2 (proj2 (formatting_is_idempotent
    (OInstance "HostProfile"
       [("_sa_instance_state", ONone); ("id", OInt 4); ("name", OStr "web");
        ("event_producers",
         OList [OInstance "EventProducer"
                  [("id", OInt 9); ("name", OStr "sshd");
                   ("pattern", OStr "syslog"); ("durable", OBool false)]])])
    _))) _)).
  reflexivity.
Defined.

(** X14: [format_host] gives a host without the key 'profile' an empty
    dict as profile, and that result cannot be formatted again: the empty
    profile has no 'event_producers', which raises KeyError.  A host that
    has a profile is returned formatted for good: formatting the result
    again gives it back unchanged. *)
Theorem format_host_twice (host y : pyobj) (d : list (string * pyobj)) :
  as_dict host = Return d ->
  format_host host = Return y ->
  (olookup "profile" d = None ->
   (exists id hostname ip_address,
       y = ODict [("id", id); ("hostname", hostname);
                  ("ip_address", ip_address); ("profile", ODict [])]) /\
   format_host y = Raise (Exn KeyError "event_producers")) /\
  (olookup "profile" d <> None -> format_host y = Return y).
Proof.
  intros Hd. unfold format_host at 1. rewrite Hd. unfold bind.
  destruct (olookup "profile" d) as [profile|] eqn:Hprofile.
  - destruct (format_host_profile profile) as [formatted|e] eqn:Hf;
      [|discriminate].
    destruct (subscript d "id") as [id|e]; [|discriminate].
    destruct (subscript d "hostname") as [hostname|e]; [|discriminate].
    destruct (subscript d "ip_address") as [ip_address|e]; [|discriminate].
    intros H. injection H as <-.
    split; [intros Hnone; discriminate Hnone|]. intros _.
    destruct (format_host_profile_fixed profile formatted Hf) as [_ Hfix].
    unfold format_host, bind. cbn [as_dict].
    change (olookup "profile" [("id", id); ("hostname", hostname);
                               ("ip_address", ip_address); ("profile", formatted)])
      with (Some formatted).
    cbv beta iota. rewrite Hfix. reflexivity.
  - destruct (subscript d "id") as [id|e]; [|discriminate].
    destruct (subscript d "hostname") as [hostname|e]; [|discriminate].
    destruct (subscript d "ip_address") as [ip_address|e]; [|discriminate].
    intros H. injection H as <-.
    split; [|intros Hsome; congruence]. intros _.
    split; [exists id, hostname, ip_address; reflexivity|reflexivity].
Qed.

Lemma format_host_twice_witness :
  format_host
    (ODict [("id", OInt 1); ("hostname", OStr "db1");
            ("ip_address", OStr "10.0.0.5"); ("profile", ODict [])])
  = Raise (Exn KeyError "event_producers").
Proof.
  refine (proj2 (proj1 (format_host_twice
    (OInstance "Host"
       [("id", OInt 1); ("hostname", OStr "db1"); ("ip_address", OStr "10.0.0.5")])
    _ _ _ _) _)).
  - reflexivity.
  - reflexivity.
  - reflexivity.
Defined.
